(** * Incremental ingestion admin router

    A shallow embedding of
    [plugins/catalog-backend-module-incremental-ingestion/src/router/routes.ts]
    (class [IncrementalProviderRouter]) and the properties of its HTTP
    handlers.

    The handlers talk to three collaborators whose code lives elsewhere:
    the database manager ([this.manager]), the logger ([this.logger]) and
    the event broker ([this.eventBroker]).  A handler is therefore embedded
    as a program over the operations it invokes; running it against an
    environment that answers those operations yields the HTTP exchange:
    the status code, the body handed to [res.json], the manager calls in
    order, the log lines and the error forwarded to [errorHandler()]. *)

From Stdlib Require Import String List ZArith Bool Lia Sorted Permutation.
From ExtLib Require Import Structures.Monad.
Import ListNotations.
Import MonadNotation.

Local Open Scope string_scope.
Local Open Scope list_scope.
Local Open Scope Z_scope.
Local Open Scope monad_scope.

(** ** JavaScript values *)

(** A [Date] is its time value in milliseconds since the epoch; the time
    value NaN is [Invalid_Date]. *)
Inductive Date : Type :=
| Invalid_Date
| Date_of (tv : Z).

(** ECMAScript TimeClip: time values beyond 8.64e15 ms are not dates. *)
Definition TimeClip (tv : Z) : Date :=
  if Z.abs tv <=? 8640000000000000 then Date_of tv else Invalid_Date.

(** [d.setTime(d.getTime() + ms)] *)
Definition Date_addTime (d : Date) (ms : Z) : Date :=
  match d with
  | Invalid_Date => Invalid_Date
  | Date_of tv => TimeClip (tv + ms)
  end.

#[local] Set Warnings "-register-all".

(** The values that reach [res.json] or travel through the handlers
    untouched (request bodies, rows returned by the manager). *)
Inductive JsValue : Type :=
| undefined
| null
| JsBool (b : bool)
| JsNumber (n : Z)
| JsString (s : string)
| JsDate (d : Date)
| JsArray (elems : list JsValue)
| JsObject (props : list (string * JsValue)).

(** Own-property lookup, [v[key]] told apart from an absent key. *)
Definition prop (key : string) (v : JsValue) : option JsValue :=
  match v with
  | JsObject props =>
      option_map snd (find (fun kv => String.eqb (fst kv) key) props)
  | _ => None
  end.

(** A thrown [Error] object. *)
Record Error : Type := { name : string; message : string }.

Definition new_Error (msg : string) : Error :=
  {| name := "Error"; message := msg |}.

(** ** Arrays of strings *)

(** [a.indexOf(e)]: index of the first element strictly equal to [e],
    or -1. *)
Fixpoint indexOf_from (i : Z) (a : list string) (e : string) : Z :=
  match a with
  | [] => -1
  | x :: a' => if String.eqb x e then i else indexOf_from (i + 1) a' e
  end.

Definition indexOf (a : list string) (e : string) : Z := indexOf_from 0 a e.

(** [a.filter((e, i, a) => f e i a)]: the callback sees the element, its
    index and the whole array. *)
Fixpoint filter_from {A : Type} (f : A -> Z -> list A -> bool)
    (a : list A) (i : Z) (rest : list A) : list A :=
  match rest with
  | [] => []
  | e :: rest' =>
      if f e i a then e :: filter_from f a (i + 1) rest'
      else filter_from f a (i + 1) rest'
  end.

Definition Array_filter {A : Type} (f : A -> Z -> list A -> bool)
    (a : list A) : list A :=
  filter_from f a 0 a.

(** [a.includes(e)] *)
Definition includes (a : list string) (e : string) : bool :=
  existsb (String.eqb e) a.

(** [[...new Set(iterable)]]: a [Set] keeps its elements in insertion
    order and ignores an element it already holds. *)
Definition Set_add (s : list string) (e : string) : list string :=
  if includes s e then s else s ++ [e].

Definition new_Set (iterable : list string) : list string :=
  fold_left Set_add iterable [].

(** What the callback [(e, i, a) => a.indexOf(e) !== i] selects, written
    without indices: the elements of [rest] that occur in [pre] or earlier
    in [rest]. *)
Fixpoint seen_before (pre rest : list string) : list string :=
  match rest with
  | [] => []
  | e :: rest' =>
      if includes pre e then e :: seen_before (pre ++ [e]) rest'
      else seen_before (pre ++ [e]) rest'
  end.

(** ** Rows and arguments of the database manager *)

(** Modelled from the spec: the declaration of the ingestion row is not
    part of routes.ts; these are the columns the handlers read
    ([record.id], [record.provider_name], [record.status],
    [record.next_action_at], [record.last_error]).  [status] is compared
    with the string ['resting'] by the code, so it is a string here. *)
Module IngestionRecord.
Record t : Type := {
  id : string;
  provider_name : string;
  status : string;
  next_action_at : Date;
  last_error : JsValue
}.
End IngestionRecord.

(** The object literal handed to [updateByName] by the cancel handler. *)
Module IngestionRecordUpdate.
Record t : Type := {
  next_action : string;
  ingestion_completed_at : Date;
  next_action_at : Date;
  status : string
}.
End IngestionRecordUpdate.

(** The methods of [IncrementalIngestionDatabaseManager] that routes.ts
    invokes, indexed by the type of the value their promise resolves to.
    Results that a handler only passes on to [res.json] stay [JsValue]s. *)
Inductive ManagerOp : Type -> Type :=
| healthcheck : ManagerOp (list IngestionRecord.t)
| cleanupProviders : ManagerOp JsValue
| getCurrentIngestionRecord (provider : string)
    : ManagerOp (option IngestionRecord.t)
| listProviders : ManagerOp (list string)
| triggerNextProviderAction (provider : string) : ManagerOp unit
| setProviderComplete (ingestionId : string) : ManagerOp unit
| setProviderCanceling (ingestionId : string) : ManagerOp unit
| updateByName (provider : string) (update : IngestionRecordUpdate.t)
    : ManagerOp unit
| purgeAndResetProvider (provider : string) : ManagerOp JsValue
| getAllMarks (id : string) : ManagerOp JsValue
| clearFinishedIngestions (provider : string) : ManagerOp JsValue.

(** Which of those methods write to the record store or the mark store:
    the getters, the listing and the health snapshot only read. *)
Definition mutates {X : Type} (op : ManagerOp X) : bool :=
  match op with
  | healthcheck => false
  | getCurrentIngestionRecord _ => false
  | listProviders => false
  | getAllMarks _ => false
  | _ => true
  end.

(** One manager call, with the type of its result hidden. *)
Inductive Call : Type :=
| call {X : Type} (op : ManagerOp X).

Definition Call_mutates (c : Call) : bool :=
  match c with call op => mutates op end.

(** [EventBroker.publish({topic, eventPayload})] *)
Record EventParams : Type := { topic : string; eventPayload : JsValue }.

(** The event broker is an object owned by another plugin; the router only
    holds a reference to it. *)
Inductive EventBroker : Type :=
| broker_ref (handle : nat).

Inductive LogLevel : Type := error | debug.

(** ** Handler programs *)

(** What a handler body can do, one constructor per kind of statement:
    return, throw, await a manager method, await [publish], read the clock
    with [new Date()], log, [res.status(code)], [res.json(body)].  An
    awaited promise resolves ([inr]) or rejects ([inl]). *)
Inductive Prog (R : Type) : Type :=
| Ret (r : R)
| Throw (e : Error)
| Manager {X : Type} (op : ManagerOp X) (k : Error + X -> Prog R)
| Publish (broker : EventBroker) (params : EventParams)
    (k : Error + unit -> Prog R)
| NewDate (k : Date -> Prog R)
| Logger (level : LogLevel) (msg : string) (k : Prog R)
| ResStatus (code : Z) (k : Prog R)
| ResJson (body : JsValue) (k : Prog R).

Arguments Ret {R} r.
Arguments Throw {R} e.
Arguments Manager {R X} op k.
Arguments Publish {R} broker params k.
Arguments NewDate {R} k.
Arguments Logger {R} level msg k.
Arguments ResStatus {R} code k.
Arguments ResJson {R} body k.

Fixpoint Prog_bind {A B : Type} (p : Prog A) (f : A -> Prog B) : Prog B :=
  match p with
  | Ret a => f a
  | Throw e => Throw e
  | Manager op k => Manager op (fun r => Prog_bind (k r) f)
  | Publish b params k => Publish b params (fun r => Prog_bind (k r) f)
  | NewDate k => NewDate (fun d => Prog_bind (k d) f)
  | Logger l m k => Logger l m (Prog_bind k f)
  | ResStatus c k => ResStatus c (Prog_bind k f)
  | ResJson b k => ResJson b (Prog_bind k f)
  end.

#[export] Instance Monad_Prog : Monad Prog :=
  {| ret := @Ret; bind := @Prog_bind |}.

(** [try { p } catch (e) { h e }] *)
Fixpoint try_catch {A : Type} (p : Prog A) (h : Error -> Prog A) : Prog A :=
  match p with
  | Ret a => Ret a
  | Throw e => h e
  | Manager op k => Manager op (fun r => try_catch (k r) h)
  | Publish b params k => Publish b params (fun r => try_catch (k r) h)
  | NewDate k => NewDate (fun d => try_catch (k d) h)
  | Logger l m k => Logger l m (try_catch k h)
  | ResStatus c k => ResStatus c (try_catch k h)
  | ResJson b k => ResJson b (try_catch k h)
  end.

(** An awaited promise that rejects throws at the [await]. *)
Definition settle {X : Type} (r : Error + X) : Prog X :=
  match r with
  | inl e => Throw e
  | inr x => Ret x
  end.

Definition await {X : Type} (op : ManagerOp X) : Prog X := Manager op settle.

Definition publish (broker : EventBroker) (params : EventParams)
    : Prog unit :=
  Publish broker params settle.

Definition new_Date : Prog Date := NewDate Ret.
Definition logger_error (msg : string) : Prog unit := Logger error msg (Ret tt).
Definition logger_debug (msg : string) : Prog unit := Logger debug msg (Ret tt).
Definition res_status (code : Z) : Prog unit := ResStatus code (Ret tt).
Definition res_json (body : JsValue) : Prog unit := ResJson body (Ret tt).

(** ** The router *)

(** [req.params] and [req.body] *)
Record Params : Type := { provider : string }.
Record Request : Type := { params : Params; body : JsValue }.

(** An express handler [(req, res) => { ... }]. *)
Definition Handler : Type := Request -> Prog unit.

(** The fields of [IncrementalProviderRouter].  [manager] and [logger] are
    set once by the constructor and reached through the operations above;
    [eventBroker] is undefined until [setEventBroker] runs. *)
Record IncrementalProviderRouter : Type := {
  eventBroker : option EventBroker
}.

Definition constructor : IncrementalProviderRouter :=
  {| eventBroker := None |}.

Definition setEventBroker (this : IncrementalProviderRouter)
    (broker : EventBroker) : IncrementalProviderRouter :=
  {| eventBroker := Some broker |}.

(** [new Date(d)] of a [Date] copies its time value. *)
Definition Date_copy (d : Date) : Date := d.

(** A template literal, given as its pieces in order. *)
Fixpoint template (parts : list string) : string :=
  match parts with
  | [] => EmptyString
  | [s] => s
  | s :: rest => String.append s (template rest)
  end.

Inductive Method : Type := GET | POST | DELETE.

Section Routes.

(** [stringifyError] comes from [@backstage/errors]. *)
Variable stringifyError : Error -> string.

(** The route patterns of [./paths]. *)
Variables PROVIDER_BASE_PATH PROVIDER_CLEANUP PROVIDER_HEALTH : string.

Variable this : IncrementalProviderRouter.

(** Get the overall health of all incremental providers *)
Definition get_health : Handler := fun _ =>
  records <- await healthcheck ;;
  let providers := map IngestionRecord.provider_name records in
  let duplicates :=
    new_Set (Array_filter (fun e i a => negb (indexOf a e =? i)) providers) in
  if Z.of_nat (length duplicates) >? 0 then
    res_json (JsObject [("healthy", JsBool false);
                        ("duplicateIngestions",
                         JsArray (map JsString duplicates))])
  else
    res_json (JsObject [("healthy", JsBool true)]).

(** Clean up and pause all providers *)
Definition post_cleanup : Handler := fun _ =>
  result <- await cleanupProviders ;;
  res_json result.

(** Get basic status of the provider *)
Definition get_provider : Handler := fun req =>
  let provider := req.(params).(provider) in
  record <- await (getCurrentIngestionRecord provider) ;;
  match record with
  | Some record =>
      res_json
        (JsObject
           [("success", JsBool true);
            ("status",
             JsObject
               [("current_action",
                 JsString record.(IngestionRecord.status));
                ("next_action_at",
                 JsDate (Date_copy record.(IngestionRecord.next_action_at)))]);
            ("last_error", record.(IngestionRecord.last_error))])
  | None =>
      providers <- await listProviders ;;
      if includes providers provider then
        res_json
          (JsObject
             [("success", JsBool true);
              ("status",
               JsObject
                 [("current_action",
                   JsString "rest complete, waiting to start")])])
      else
        logger_error
          (template [provider;
                     " - No ingestion record found in the database!"]) ;;
        res_status 404 ;;
        res_json
          (JsObject
             [("success", JsBool false);
              ("status", JsObject []);
              ("last_error",
               JsString (template ["Provider '"; provider; "' not found"]))])
  end.

(** Trigger the provider's next action *)
Definition post_trigger : Handler := fun req =>
  let provider := req.(params).(provider) in
  record <- await (getCurrentIngestionRecord provider) ;;
  match record with
  | Some _ =>
      await (triggerNextProviderAction provider) ;;
      res_json
        (JsObject
           [("success", JsBool true);
            ("message",
             JsString (template [provider; ": Next action triggered."]))])
  | None =>
      providers <- await listProviders ;;
      if includes providers provider then
        logger_debug (template [provider; " - Ingestion record found"]) ;;
        res_json
          (JsObject
             [("success", JsBool true);
              ("message",
               JsString
                 "Unable to trigger next action (provider is restarting)")])
      else
        res_status 404 ;;
        res_json
          (JsObject
             [("success", JsBool false);
              ("message",
               JsString (template ["Provider '"; provider; "' not found"]))])
  end.

(** Start a brand-new ingestion cycle for the provider.
    (Cancel's the current run if active, or marks it complete if resting) *)
Definition post_start : Handler := fun req =>
  let provider := req.(params).(provider) in
  record <- await (getCurrentIngestionRecord provider) ;;
  match record with
  | Some record =>
      let ingestionId := record.(IngestionRecord.id) in
      (if String.eqb record.(IngestionRecord.status) "resting" then
         await (setProviderComplete ingestionId)
       else
         await (setProviderCanceling ingestionId)) ;;
      res_json
        (JsObject
           [("success", JsBool true);
            ("message",
             JsString (template [provider; ": Next cycle triggered."]))])
  | None =>
      providers <- await listProviders ;;
      if includes providers provider then
        logger_debug (template [provider; " - Ingestion record found"]) ;;
        res_json
          (JsObject
             [("success", JsBool true);
              ("message", JsString "Provider is already restarting")])
      else
        res_status 404 ;;
        res_json
          (JsObject
             [("success", JsBool false);
              ("message",
               JsString (template ["Provider '"; provider; "' not found"]))])
  end.

(** Stop the provider and pause it for 24 hours *)
Definition post_cancel : Handler := fun req =>
  let provider := req.(params).(provider) in
  record <- await (getCurrentIngestionRecord provider) ;;
  match record with
  | Some _ =>
      next_action_at <- new_Date ;;
      let next_action_at :=
        Date_addTime next_action_at (24 * 60 * 60 * 1000) in
      ingestion_completed_at <- new_Date ;;
      await (updateByName provider
               {| IngestionRecordUpdate.next_action := "nothing (done)";
                  IngestionRecordUpdate.ingestion_completed_at :=
                    ingestion_completed_at;
                  IngestionRecordUpdate.next_action_at := next_action_at;
                  IngestionRecordUpdate.status := "resting" |}) ;;
      res_json
        (JsObject
           [("success", JsBool true);
            ("message",
             JsString
               (template [provider; ": Current ingestion canceled."]))])
  | None =>
      providers <- await listProviders ;;
      if includes providers provider then
        logger_debug (template [provider; " - Ingestion record found"]) ;;
        res_json
          (JsObject
             [("success", JsBool true);
              ("message",
               JsString "Provider is currently restarting, please wait.")])
      else
        res_status 404 ;;
        res_json
          (JsObject
             [("success", JsBool false);
              ("message",
               JsString (template ["Provider '"; provider; "' not found"]))])
  end.

(** Wipe out all ingestion records for the provider and pause for 24 hours *)
Definition delete_provider : Handler := fun req =>
  let provider := req.(params).(provider) in
  result <- await (purgeAndResetProvider provider) ;;
  res_json result.

(** Get the ingestion marks for the current cycle *)
Definition get_marks : Handler := fun req =>
  let provider := req.(params).(provider) in
  record <- await (getCurrentIngestionRecord provider) ;;
  match record with
  | Some record =>
      let id := record.(IngestionRecord.id) in
      records <- await (getAllMarks id) ;;
      res_json (JsObject [("success", JsBool true); ("records", records)])
  | None =>
      providers <- await listProviders ;;
      if includes providers provider then
        logger_debug (template [provider; " - Ingestion record found"]) ;;
        res_json
          (JsObject
             [("success", JsBool true);
              ("message",
               JsString "No records yet (provider is restarting)")])
      else
        logger_error
          (template [provider;
                     " - No ingestion record found in the database!"]) ;;
        res_status 404 ;;
        res_json
          (JsObject
             [("success", JsBool false);
              ("status", JsObject []);
              ("last_error",
               JsString (template ["Provider '"; provider; "' not found"]))])
  end.

Definition delete_marks : Handler := fun req =>
  let provider := req.(params).(provider) in
  deletions <- await (clearFinishedIngestions provider) ;;
  res_json
    (JsObject
       [("success", JsBool true);
        ("message",
         JsString
           (template ["Expired marks for provider '"; provider;
                      "' removed."]));
        ("deletions", deletions)]).

Definition post_delta : Handler := fun req =>
  let provider := req.(params).(provider) in
  let topic := template [provider; "-push"] in
  let eventPayload := req.(body) in
  match this.(eventBroker) with
  | None =>
      res_status 500 ;;
      res_json
        (JsObject
           [("success", JsBool false);
            ("provider", JsString provider);
            ("message", JsString "The payload could not be processed!")]) ;;
      Throw (new_Error "Event broker not initialized!")
  | Some broker =>
      try_catch
        (publish broker {| topic := topic; eventPayload := eventPayload |} ;;
         res_json
           (JsObject
              [("success", JsBool true);
               ("provider", JsString provider);
               ("message", JsString "Payload submitted.")]))
        (fun e =>
           res_status 500 ;;
           res_json
             (JsObject
                [("success", JsBool false);
                 ("provider", JsString provider);
                 ("message",
                  JsString
                    (template ["There was an error submitting the payload: ";
                               stringifyError e]))]))
  end.

(** The routes in registration order.  [express.json()] in front of them
    parses the request body into [req.body]; [errorHandler()] behind them
    receives what a handler throws. *)
Definition createRouter : list (Method * string * Handler) :=
  [ (GET, PROVIDER_HEALTH, get_health);
    (POST, PROVIDER_CLEANUP, post_cleanup);
    (GET, PROVIDER_BASE_PATH, get_provider);
    (POST, template [PROVIDER_BASE_PATH; "/trigger"], post_trigger);
    (POST, template [PROVIDER_BASE_PATH; "/start"], post_start);
    (POST, template [PROVIDER_BASE_PATH; "/cancel"], post_cancel);
    (DELETE, PROVIDER_BASE_PATH, delete_provider);
    (GET, template [PROVIDER_BASE_PATH; "/marks"], get_marks);
    (DELETE, template [PROVIDER_BASE_PATH; "/marks"], delete_marks);
    (POST, template [PROVIDER_BASE_PATH; "/delta"], post_delta) ].

End Routes.

(** ** Running a handler *)

(** The collaborators as seen from the router: over some state [W] (the
    record store, the mark store, the event bus, the wall clock), every
    manager method and [publish] resolves or rejects and leaves a new
    state; [clock] is the time value [new Date()] reads. *)
Record Env (W : Type) : Type := {
  manager : forall X : Type, ManagerOp X -> W -> (Error + X) * W;
  broker_publish : EventBroker -> EventParams -> W -> (Error + unit) * W;
  clock : W -> Z * W
}.

Arguments manager {W} e {X} op w.
Arguments broker_publish {W} e broker params w.
Arguments clock {W} e w.

(** One HTTP exchange as it unfolds: the collaborators' state, the
    response ([statusCode] starts at 200, [sent] is the body given to
    [res.json]), the manager calls and publishes in order, the log lines,
    and the error that escaped the handler (express-promise-router
    forwards it to [errorHandler()]). *)
Record Exchange (W : Type) : Type := {
  world : W;
  statusCode : Z;
  sent : option JsValue;
  calls : list Call;
  published : list (EventBroker * EventParams);
  logged : list (LogLevel * string);
  forwarded : option Error
}.

Arguments world {W} e.
Arguments statusCode {W} e.
Arguments sent {W} e.
Arguments calls {W} e.
Arguments published {W} e.
Arguments logged {W} e.
Arguments forwarded {W} e.

Definition start {W : Type} (w : W) : Exchange W :=
  {| world := w; statusCode := 200; sent := None; calls := [];
     published := []; logged := []; forwarded := None |}.

(** Runs a handler body statement by statement.  What the client receives
    is fixed by the first [res.json]; no handler calls it twice on one
    path. *)
Fixpoint run {W : Type} (env : Env W) (p : Prog unit) (x : Exchange W)
    : Exchange W :=
  match p with
  | Ret _ => x
  | Throw e =>
      {| world := world x; statusCode := statusCode x; sent := sent x;
         calls := calls x; published := published x; logged := logged x;
         forwarded := Some e |}
  | Manager op k =>
      let (r, w') := manager env op (world x) in
      run env (k r)
        {| world := w'; statusCode := statusCode x; sent := sent x;
           calls := calls x ++ [call op]; published := published x;
           logged := logged x; forwarded := forwarded x |}
  | Publish b params k =>
      let (r, w') := broker_publish env b params (world x) in
      run env (k r)
        {| world := w'; statusCode := statusCode x; sent := sent x;
           calls := calls x; published := published x ++ [(b, params)];
           logged := logged x; forwarded := forwarded x |}
  | NewDate k =>
      let (tv, w') := clock env (world x) in
      run env (k (Date_of tv))
        {| world := w'; statusCode := statusCode x; sent := sent x;
           calls := calls x; published := published x; logged := logged x;
           forwarded := forwarded x |}
  | Logger l m k =>
      run env k
        {| world := world x; statusCode := statusCode x; sent := sent x;
           calls := calls x; published := published x;
           logged := logged x ++ [(l, m)]; forwarded := forwarded x |}
  | ResStatus c k =>
      run env k
        {| world := world x;
           statusCode := match sent x with None => c | Some _ => statusCode x end;
           sent := sent x; calls := calls x; published := published x;
           logged := logged x; forwarded := forwarded x |}
  | ResJson b k =>
      run env k
        {| world := world x; statusCode := statusCode x;
           sent := match sent x with None => Some b | Some _ => sent x end;
           calls := calls x; published := published x; logged := logged x;
           forwarded := forwarded x |}
  end.

(** A request served by a handler from collaborator state [w]. *)
Definition serve {W : Type} (env : Env W) (h : Handler) (req : Request)
    (w : W) : Exchange W :=
  run env (h req) (start w).

(** An environment whose read-only manager methods leave the state as it
    was. *)
Definition reads_preserve {W : Type} (env : Env W) : Prop :=
  forall (X : Type) (op : ManagerOp X) (w : W),
    mutates op = false -> snd (manager env op w) = w.

(** The method a call names. *)
Definition method_name {X : Type} (op : ManagerOp X) : string :=
  match op with
  | healthcheck => "healthcheck"
  | cleanupProviders => "cleanupProviders"
  | getCurrentIngestionRecord _ => "getCurrentIngestionRecord"
  | listProviders => "listProviders"
  | triggerNextProviderAction _ => "triggerNextProviderAction"
  | setProviderComplete _ => "setProviderComplete"
  | setProviderCanceling _ => "setProviderCanceling"
  | updateByName _ _ => "updateByName"
  | purgeAndResetProvider _ => "purgeAndResetProvider"
  | getAllMarks _ => "getAllMarks"
  | clearFinishedIngestions _ => "clearFinishedIngestions"
  end.

Definition Call_name (c : Call) : string :=
  match c with call op => method_name op end.

(** ** Vocabulary of the properties *)

(** A provider name occurs more than once in a list of names. *)
Definition appears_more_than_once (providers : list string) (p : string)
    : Prop :=
  (1 < count_occ string_dec providers p)%nat.

(** The five per-provider routes that tell known from unknown providers. *)
Definition discriminating_routes : list Handler :=
  [get_provider; post_trigger; post_start; post_cancel; get_marks].

(** [needle] occurs somewhere inside [hay]. *)
Fixpoint contains (hay needle : string) : bool :=
  if String.prefix needle hay then true
  else
    match hay with
    | EmptyString => false
    | String _ hay' => contains hay' needle
    end.

(** The response is a 500 with [success: false] whose [message] carries
    the stringified error [e]. *)
Definition echoes_error {W : Type} (stringifyError : Error -> string)
    (x : Exchange W) (e : Error) : Prop :=
  statusCode x = 500 /\
  exists reply m,
    sent x = Some reply
    /\ prop "success" reply = Some (JsBool false)
    /\ prop "message" reply = Some (JsString m)
    /\ contains m (stringifyError e) = true.

(** The contract of POST /{provider}/delta in the words of the interface
    description: a 500 echoing the stringified error both when the
    publisher is not initialized and when publish fails; otherwise the
    request body is published on topic "<provider>-push" and the reply has
    [success: true]. *)
Definition delta_contract {W : Type} (stringifyError : Error -> string)
    (env : Env W) (this : IncrementalProviderRouter) (req : Request) (w : W)
    : Prop :=
  let x := serve env (post_delta stringifyError this) req w in
  match this.(eventBroker) with
  | None => echoes_error stringifyError x
              (new_Error "Event broker not initialized!")
  | Some b =>
      let event :=
        {| topic := (req.(params).(provider) ++ "-push")%string;
           eventPayload := req.(body) |} in
      published x = [(b, event)] /\
      match fst (broker_publish env b event w) with
      | inl e => echoes_error stringifyError x e
      | inr _ =>
          statusCode x = 200 /\
          exists reply,
            sent x = Some reply /\ prop "success" reply = Some (JsBool true)
      end
  end.

(** ** The mark store *)

(** Modelled from the spec: the mark rows belong to
    [IncrementalIngestionDatabaseManager], which routes.ts only calls.  A
    mark (section 3, "Mark") has an [id], the [ingestion_record_id] of the
    record that owns it, an opaque [cursor], a [sequence] and
    [created_at]. *)
Module Mark.
Record t : Type := {
  id : string;
  ingestion_record_id : string;
  cursor : JsValue;
  sequence : Z;
  created_at : Date
}.
End Mark.

(** Modelled from the spec: the mark store (section 2) is the durable log
    of the marks of all records, its rows in no particular order. *)
Definition MarkStore : Type := list Mark.t.

(** Modelled from the spec: putting a mark in its place among marks
    already in ascending order of [sequence]. *)
Fixpoint insert_by_sequence (m : Mark.t) (ordered : list Mark.t)
    : list Mark.t :=
  match ordered with
  | [] => [m]
  | x :: rest =>
      if m.(Mark.sequence) <=? x.(Mark.sequence) then m :: x :: rest
      else x :: insert_by_sequence m rest
  end.

(** Modelled from the spec: ordering by [sequence], ascending. *)
Definition order_by_sequence (marks : list Mark.t) : list Mark.t :=
  fold_right insert_by_sequence [] marks.

(** Modelled from the spec: [getAll(recordId)] is the "ordered sequence of
    marks for a record, ascending by sequence" (section 4.2): the rows
    owned by the record, ordered by [sequence]. *)
Definition getAll (store : MarkStore) (recordId : string) : list Mark.t :=
  order_by_sequence
    (filter (fun m => String.eqb m.(Mark.ingestion_record_id) recordId)
       store).

(** A mark row as the JavaScript object the manager hands out. *)
Definition Mark_to_js (m : Mark.t) : JsValue :=
  JsObject [("id", JsString m.(Mark.id));
            ("ingestion_record_id", JsString m.(Mark.ingestion_record_id));
            ("cursor", m.(Mark.cursor));
            ("sequence", JsNumber m.(Mark.sequence));
            ("created_at", JsDate m.(Mark.created_at))].

(** Every mark of the list has a [sequence] no larger than that of the
    marks after it. *)
Definition ascending_by_sequence (marks : list Mark.t) : Prop :=
  StronglySorted (fun a b => a.(Mark.sequence) <= b.(Mark.sequence)) marks.

(** The same with no two marks sharing a [sequence]. *)
Definition strictly_ascending_by_sequence (marks : list Mark.t) : Prop :=
  StronglySorted (fun a b => a.(Mark.sequence) < b.(Mark.sequence)) marks.

(** Modelled from the spec: a manager whose [getAllMarks] is the spec's
    [getAll] over the mark store [mark_store w] it keeps in its state, and
    which only reads it. *)
Definition serves_marks {W : Type} (env : Env W) (mark_store : W -> MarkStore)
    : Prop :=
  forall (recordId : string) (w : W),
    manager env (getAllMarks recordId) w
    = (inr (JsArray (map Mark_to_js (getAll (mark_store w) recordId))), w).

(** ** A small in-memory environment

    A test double for the collaborators, used to exercise the theorems on
    concrete requests: the store holds ingestion rows, the list of known
    provider names, a journal of the writes it was asked to do and the
    wall clock, which advances by one millisecond per reading. *)
Module Fixture.

Record World : Type := {
  rows : list IngestionRecord.t;
  known : list string;
  journal : list Call;
  now : Z
}.

Definition write (c : Call) (w : World) : World :=
  {| rows := rows w; known := known w; journal := journal w ++ [c];
     now := now w |}.

Definition current (p : string) (w : World) : option IngestionRecord.t :=
  find (fun r => String.eqb r.(IngestionRecord.provider_name) p) (rows w).

Definition marks : JsValue :=
  JsArray [JsObject [("sequence", JsNumber 0); ("cursor", JsString "a")];
           JsObject [("sequence", JsNumber 1); ("cursor", JsString "b")]].

Definition answer (X : Type) (op : ManagerOp X) (w : World)
    : (Error + X) * World :=
  match op in ManagerOp X return (Error + X) * World with
  | healthcheck =>
      (inr (filter
              (fun r =>
                 negb (String.eqb r.(IngestionRecord.status) "resting"))
              (rows w)), w)
  | cleanupProviders => (inr (JsObject []), write (call cleanupProviders) w)
  | getCurrentIngestionRecord p => (inr (current p w), w)
  | listProviders => (inr (known w), w)
  | triggerNextProviderAction p =>
      (inr tt, write (call (triggerNextProviderAction p)) w)
  | setProviderComplete i => (inr tt, write (call (setProviderComplete i)) w)
  | setProviderCanceling i =>
      (inr tt, write (call (setProviderCanceling i)) w)
  | updateByName p u => (inr tt, write (call (updateByName p u)) w)
  | purgeAndResetProvider p =>
      (inr (JsObject []), write (call (purgeAndResetProvider p)) w)
  | getAllMarks _ => (inr marks, w)
  | clearFinishedIngestions p =>
      (inr (JsNumber 0), write (call (clearFinishedIngestions p)) w)
  end.

(** Broker 0 accepts every event; any other broker is down. *)
Definition deliver (b : EventBroker) (params : EventParams) (w : World)
    : (Error + unit) * World :=
  match b with
  | broker_ref O => (inr tt, w)
  | broker_ref (S _) => (inl (new_Error "bus down"), w)
  end.

Definition read_clock (w : World) : Z * World :=
  (now w,
   {| rows := rows w; known := known w; journal := journal w;
      now := now w + 1 |}).

Definition env : Env World :=
  {| manager := answer; broker_publish := deliver;
     clock := read_clock |}.

Definition row (i p s : string) : IngestionRecord.t :=
  {| IngestionRecord.id := i; IngestionRecord.provider_name := p;
     IngestionRecord.status := s;
     IngestionRecord.next_action_at := Date_of 1700000000000;
     IngestionRecord.last_error := null |}.

(** Two active rows for "github", one for "gitlab", a resting "ldap" row;
    "bitbucket" is known but has no row. *)
Definition store : World :=
  {| rows := [row "1" "github" "ingesting"; row "2" "gitlab" "canceling";
              row "3" "github" "ingesting"; row "4" "ldap" "resting"];
     known := ["github"; "gitlab"; "ldap"; "bitbucket"];
     journal := [];
     now := 1700000000000 |}.

Definition request (p : string) : Request :=
  {| params := {| provider := p |};
     body := JsObject [("kind", JsString "delta")] |}.

(** A stringification for the examples, [name: message], which is what
    [String(error)] yields for an [Error] object. *)
Definition stringifyError (e : Error) : string :=
  template [name e; ": "; message e].

End Fixture.

(** The in-memory environment with a mark store beside it: its
    [getAllMarks] is [getAll] over that store. *)
Module Marked.

Definition World : Type := (Fixture.World * MarkStore)%type.

Definition answer (X : Type) (op : ManagerOp X) (w : World)
    : (Error + X) * World :=
  match op in ManagerOp X return (Error + X) * World with
  | getAllMarks i =>
      (inr (JsArray (map Mark_to_js (getAll (snd w) i))), w)
  | op' =>
      let (r, s) := Fixture.answer _ op' (fst w) in (r, (s, snd w))
  end.

Definition env : Env World :=
  {| manager := answer;
     broker_publish :=
       fun b params w =>
         let (r, s) := Fixture.deliver b params (fst w) in (r, (s, snd w));
     clock :=
       fun w => let (t, s) := Fixture.read_clock (fst w) in (t, (s, snd w)) |}.

Definition mark (i owner c : string) (n : Z) : Mark.t :=
  {| Mark.id := i; Mark.ingestion_record_id := owner;
     Mark.cursor := JsString c; Mark.sequence := n;
     Mark.created_at := Date_of 1700000000000 |}.

(** The marks of record "2" stored out of order, between marks of record
    "1". *)
Definition store : World :=
  (Fixture.store,
   [mark "m3" "2" "page-3" 2; mark "n1" "1" "page-1" 0;
    mark "m1" "2" "page-1" 0; mark "n2" "1" "page-2" 1;
    mark "m2" "2" "page-2" 1]).

End Marked.

(** ** Families of routes and situations *)

(** The routes that go straight to one manager method. *)
Definition direct_routes : list Handler :=
  [get_health; post_cleanup; delete_provider; delete_marks].

(** Every route except POST /{provider}/delta, which only talks to the
    event broker. *)
Definition manager_routes : list Handler :=
  direct_routes ++ discriminating_routes.

(** The routes registered with [router.get]. *)
Definition get_routes : list Handler :=
  [get_health; get_provider; get_marks].

(** The routes that act on the provider's current record. *)
Definition acting_routes : list Handler :=
  [post_trigger; post_start; post_cancel].

(** The routes whose known-provider branch calls [logger.debug]. *)
Definition debug_routes : list Handler :=
  [post_trigger; post_start; post_cancel; get_marks].

(** The routes whose 404 branch calls [logger.error]. *)
Definition error_routes : list Handler :=
  [get_provider; get_marks].

(** The manager finds no current record for [p], and [listProviders()]
    resolves to a list that does ([known = true]) or does not
    ([known = false]) include [p]. *)
Definition no_current_record {W : Type} (env : Env W) (p : string)
    (known : bool) (w : W) : Prop :=
  exists (w1 : W) (providers : list string) (w2 : W),
    manager env (getCurrentIngestionRecord p) w = (inr None, w1)
    /\ manager env listProviders w1 = (inr providers, w2)
    /\ includes providers p = known.


(** The database is unreachable: every manager method rejects with [e] and
    leaves the state as it was. *)
Definition manager_down {W : Type} (env : Env W) (e : Error) : Prop :=
  forall (X : Type) (op : ManagerOp X) (w : W),
    manager env op w = (inl e, w).

(** The in-memory environment with its database unreachable. *)
Module Outage.

Definition refused : Error := new_Error "connection refused".

Definition env : Env Fixture.World :=
  {| manager := fun X _ w => (inl refused, w);
     broker_publish := Fixture.deliver;
     clock := Fixture.read_clock |}.

End Outage.

(** The in-memory environment with its store switched to read-only. *)
Module ReadOnly.

Definition answer (X : Type) (op : ManagerOp X) (w : Fixture.World)
    : (Error + X) * Fixture.World :=
  if mutates op then (inl (new_Error "read-only store"), w)
  else Fixture.answer X op w.

Definition env : Env Fixture.World :=
  {| manager := answer; broker_publish := Fixture.deliver;
     clock := Fixture.read_clock |}.

End ReadOnly.

(** ** Proof automation *)

(** Unfolds a handler served from the start state and replays the answers
    of the collaborators that are among the hypotheses. *)
Ltac replay :=
  unfold serve, start; cbn;
  repeat match goal with
         | H : manager _ _ _ = _ |- _ => rewrite H; cbn
         | H : clock _ _ = _ |- _ => rewrite H; cbn
         | H : broker_publish _ _ _ _ = _ |- _ => rewrite H; cbn
         | H : includes _ _ = _ |- _ => rewrite H; cbn
         end.

(** Walks through a served handler, splitting on every answer a
    collaborator can give and on every test the handler makes. *)
Ltac explore :=
  unfold serve, start; cbn;
  repeat
    (match goal with
     | |- context [manager ?env ?op ?w] =>
         let H := fresh "Hanswer" in
         destruct (manager env op w) as [[?e | ?v] ?w] eqn:H
     | |- context [clock ?env ?w] =>
         let H := fresh "Hclock" in
         destruct (clock env w) as [?t ?w] eqn:H
     | |- context [match ?v with Some _ => _ | None => _ end] =>
         is_var v; destruct v
     | |- context [if includes ?a ?b then _ else _] =>
         let H := fresh "Hincludes" in
         destruct (includes a b) eqn:H
     | |- context [if String.eqb ?a ?b then _ else _] =>
         let H := fresh "Hstatus" in
         destruct (String.eqb a b) eqn:H
     | |- context [run _ (if ?b then _ else _) _] =>
         let H := fresh "Htest" in
         destruct b eqn:H
     end; cbn).

(** Proves that a route belongs to a literal list of routes. *)
Ltac pick_route := cbn; repeat (first [left; reflexivity | right]).

(** What the reading methods leave behind, one call at a time. *)
Ltac settle_reads Hreads :=
  repeat match goal with
         | H : manager ?env ?op ?w = (_, ?w') |- _ =>
             let E := fresh "E" in
             pose proof (Hreads _ op w eq_refl) as E;
             rewrite H in E; cbn in E; subst w'; clear H
         end.


(** Picks a route out of a literal list of routes. *)
Ltac each_route H :=
  cbn in H;
  repeat match type of H with
         | _ \/ _ => destruct H as [<- | H]
         | False => destruct H
         end.

(** ** Facts about the array operations *)

Lemma includes_In (a : list string) (e : string) :
  includes a e = true <-> In e a.
Proof.
  unfold includes. rewrite existsb_exists. split.
  - intros [x [Hin Heq]]. apply String.eqb_eq in Heq. now subst.
  - intros Hin. exists e. split; [assumption | apply String.eqb_refl].
Qed.

Lemma includes_not_In (a : list string) (e : string) :
  includes a e = false <-> ~ In e a.
Proof.
  rewrite <- includes_In. destruct (includes a e); split; congruence.
Qed.

(** Where [indexOf] lands when the element already occurs in a prefix. *)
Lemma indexOf_from_prefix (pre rest : list string) (e : string) (i : Z) :
  In e pre ->
  i <= indexOf_from i (pre ++ rest) e < i + Z.of_nat (length pre).
Proof.
  revert i. induction pre as [| x pre IH]; intros i Hin; [destruct Hin |].
  cbn [app indexOf_from length]. rewrite Nat2Z.inj_succ.
  destruct (String.eqb x e) eqn:Hx; [lia |].
  destruct Hin as [Heq | Hin].
  - subst x. rewrite String.eqb_refl in Hx. discriminate.
  - specialize (IH (i + 1) Hin). lia.
Qed.

(** Where it lands at the first occurrence. *)
Lemma indexOf_from_first (pre rest : list string) (e : string) (i : Z) :
  ~ In e pre ->
  indexOf_from i (pre ++ e :: rest) e = i + Z.of_nat (length pre).
Proof.
  revert i. induction pre as [| x pre IH]; intros i Hnin.
  - cbn. rewrite String.eqb_refl. lia.
  - cbn [app indexOf_from length]. rewrite Nat2Z.inj_succ.
    destruct (String.eqb x e) eqn:Hx.
    + apply String.eqb_eq in Hx. subst x. exfalso. apply Hnin. now left.
    + rewrite IH; [lia |]. intros Hin. apply Hnin. now right.
Qed.

Lemma filter_from_seen_before (pre rest : list string) :
  filter_from (fun e i a => negb (indexOf a e =? i)) (pre ++ rest)
    (Z.of_nat (length pre)) rest
  = seen_before pre rest.
Proof.
  revert pre. induction rest as [| e rest IH]; intros pre; [reflexivity |].
  cbn [filter_from seen_before].
  assert (Hstep : filter_from (fun e i a => negb (indexOf a e =? i))
                    (pre ++ e :: rest) (Z.of_nat (length pre) + 1) rest
                  = seen_before (pre ++ [e]) rest).
  { specialize (IH (pre ++ [e])).
    rewrite <- app_assoc, length_app, Nat2Z.inj_add in IH. exact IH. }
  rewrite Hstep.
  destruct (includes pre e) eqn:Hinc.
  - apply includes_In in Hinc.
    pose proof (indexOf_from_prefix pre (e :: rest) e 0 Hinc) as Hidx.
    unfold indexOf.
    destruct (Z.eqb_spec (indexOf_from 0 (pre ++ e :: rest) e)
                (Z.of_nat (length pre))); [lia | reflexivity].
  - apply includes_not_In in Hinc.
    unfold indexOf. rewrite (indexOf_from_first pre rest e 0 Hinc).
    rewrite Z.add_0_l, Z.eqb_refl. reflexivity.
Qed.

Lemma Array_filter_seen_before (a : list string) :
  Array_filter (fun e i a => negb (indexOf a e =? i)) a = seen_before [] a.
Proof. exact (filter_from_seen_before [] a). Qed.

Lemma In_seen_before (x : string) (rest pre : list string) :
  In x (seen_before pre rest) <->
  (In x pre /\ In x rest) \/ (2 <= count_occ string_dec rest x)%nat.
Proof.
  revert pre. induction rest as [| e rest IH]; intros pre.
  - cbn. split; [intros [] | intros [[_ []] | H]; lia].
  - cbn [seen_before count_occ].
    pose proof (count_occ_In string_dec rest x) as Hocc.
    assert (Hrest : In x (seen_before (pre ++ [e]) rest) <->
                    ((In x pre \/ e = x) /\ In x rest)
                    \/ (2 <= count_occ string_dec rest x)%nat).
    { rewrite IH, in_app_iff. cbn. tauto. }
    destruct (string_dec e x) as [-> | Hne].
    + destruct (includes pre x) eqn:Hinc.
      * apply includes_In in Hinc. cbn [In]. rewrite Hrest.
        split; [intros _; left; tauto |].
        intros _. now left.
      * apply includes_not_In in Hinc. rewrite Hrest. cbn [In].
        split.
        -- intros [[_ Hin] | H2]; [right; apply Hocc in Hin; lia | right; lia].
        -- intros [[Hp _] | H2]; [contradiction |].
           left. split; [now right | apply Hocc; lia].
    + destruct (includes pre e) eqn:Hinc; cbn [In]; rewrite Hrest;
        intuition congruence.
Qed.

(** The callback of the health handler keeps exactly the provider names
    that occur at least twice. *)
Lemma In_repeated (providers : list string) (x : string) :
  In x (Array_filter (fun e i a => negb (indexOf a e =? i)) providers) <->
  (1 < count_occ string_dec providers x)%nat.
Proof.
  rewrite Array_filter_seen_before, In_seen_before. cbn.
  split; [intros [[[] _] | H]; lia | intros H; right; lia].
Qed.

Lemma Set_add_spec (s : list string) (e : string) :
  NoDup s ->
  NoDup (Set_add s e) /\ (forall x, In x (Set_add s e) <-> In x s \/ x = e).
Proof.
  intros Hnd. unfold Set_add. destruct (includes s e) eqn:Hinc.
  - apply includes_In in Hinc. split; [assumption |].
    intros x. split; [tauto | intros [H | ->]; assumption].
  - apply includes_not_In in Hinc. split.
    + apply NoDup_app; [assumption | repeat constructor; intros [] |].
      intros x Hx [<- | []]. contradiction.
    + intros x. rewrite in_app_iff. cbn. intuition congruence.
Qed.

Lemma fold_Set_add_spec (l s : list string) :
  NoDup s ->
  NoDup (fold_left Set_add l s)
  /\ (forall x, In x (fold_left Set_add l s) <-> In x s \/ In x l).
Proof.
  revert s. induction l as [| e l IH]; intros s Hnd; cbn [fold_left].
  - split; [assumption | intros x; cbn; tauto].
  - destruct (Set_add_spec s e Hnd) as [Hnd' Hin'].
    destruct (IH _ Hnd') as [Hnd'' Hin'']. split; [assumption |].
    intros x. rewrite Hin'', Hin'. cbn. intuition congruence.
Qed.

Lemma new_Set_NoDup (l : list string) : NoDup (new_Set l).
Proof. apply fold_Set_add_spec. constructor. Qed.

Lemma new_Set_In (l : list string) (x : string) : In x (new_Set l) <-> In x l.
Proof.
  unfold new_Set. destruct (fold_Set_add_spec l [] (NoDup_nil _)) as [_ H].
  rewrite H. cbn. tauto.
Qed.

(** ** GET /health *)

Lemma repeated_length (providers : list string) :
  let duplicates :=
    new_Set (Array_filter (fun e i a => negb (indexOf a e =? i)) providers) in
  (Z.of_nat (length duplicates) >? 0) = true <->
  exists p, appears_more_than_once providers p.
Proof.
  intros duplicates. unfold appears_more_than_once.
  assert (Hin : forall p, In p duplicates <->
                          (1 < count_occ string_dec providers p)%nat).
  { intros p. unfold duplicates. now rewrite new_Set_In, In_repeated. }
  destruct duplicates as [| d ds].
  - split; [cbn; discriminate |].
    intros [p Hp]. apply Hin in Hp. destruct Hp.
  - split; [| intros _; cbn [length]; apply Z.gtb_lt; lia].
    intros _. exists d. apply Hin. now left.
Qed.

(** C1.  GET /health, when [healthcheck()] resolves to [records]: the
    response is a 200 whose [healthy] field is [true] if and only if no
    provider name appears more than once among the records; in that case
    the body has no [duplicateIngestions] field; and when some provider
    appears more than once the body is [{healthy: false,
    duplicateIngestions}] where [duplicateIngestions] has no repetition and
    holds exactly the provider names that appear more than once. *)
Theorem health_reports_duplicates (W : Type) (env : Env W) (req : Request)
    (w w' : W) (records : list IngestionRecord.t) :
  manager env healthcheck w = (inr records, w') ->
  let providers := map IngestionRecord.provider_name records in
  let x := serve env get_health req w in
  exists body,
    sent x = Some body /\ statusCode x = 200 /\
    (prop "healthy" body = Some (JsBool true) <->
     forall p, ~ appears_more_than_once providers p) /\
    (prop "healthy" body = Some (JsBool true) ->
     prop "duplicateIngestions" body = None) /\
    ((exists p, appears_more_than_once providers p) ->
     exists duplicates,
       body = JsObject [("healthy", JsBool false);
                        ("duplicateIngestions",
                         JsArray (map JsString duplicates))]
       /\ NoDup duplicates
       /\ forall p, In p duplicates <-> appears_more_than_once providers p).
Proof.
  intros Hhealth providers x.
  unfold x, serve, get_health. cbn. rewrite Hhealth. cbn.
  fold providers.
  pose proof (repeated_length providers) as Hlen. cbn zeta in Hlen.
  set (duplicates :=
         new_Set (Array_filter (fun e i a => negb (indexOf a e =? i))
                    providers)) in *.
  destruct (Z.of_nat (length duplicates) >? 0) eqn:Hgt; cbn.
  - exists (JsObject [("healthy", JsBool false);
                      ("duplicateIngestions",
                       JsArray (map JsString duplicates))]).
    split; [reflexivity |]. split; [reflexivity |].
    split; [split | split].
    + cbn. discriminate.
    + intros Hnone. destruct Hlen as [Hsome _].
      destruct (Hsome eq_refl) as [p Hp]. exfalso. now apply (Hnone p).
    + cbn. discriminate.
    + intros _. exists duplicates. split; [reflexivity |].
      split; [apply new_Set_NoDup |].
      intros p. unfold duplicates, appears_more_than_once.
      now rewrite new_Set_In, In_repeated.
  - exists (JsObject [("healthy", JsBool true)]).
    split; [reflexivity |]. split; [reflexivity |].
    split; [split | split].
    + intros _ p Hp. destruct Hlen as [_ Hback].
      assert (false = true) by (apply Hback; now exists p). discriminate.
    + intros _. reflexivity.
    + intros _. reflexivity.
    + intros Hsome. apply Hlen in Hsome. discriminate.
Qed.

Lemma health_reports_duplicates_witness :
  manager Fixture.env healthcheck Fixture.store
  = (inr [Fixture.row "1" "github" "ingesting";
          Fixture.row "2" "gitlab" "canceling";
          Fixture.row "3" "github" "ingesting"], Fixture.store)
  /\ exists duplicates,
       sent (serve Fixture.env get_health (Fixture.request "") Fixture.store)
       = Some (JsObject [("healthy", JsBool false);
                         ("duplicateIngestions",
                          JsArray (map JsString duplicates))])
       /\ NoDup duplicates
       /\ forall p,
            In p duplicates <->
            appears_more_than_once ["github"; "gitlab"; "github"] p.
Proof.
  split; [reflexivity |].
  destruct (health_reports_duplicates Fixture.World Fixture.env
              (Fixture.request "") Fixture.store Fixture.store _ eq_refl)
    as [reply [Hsent [_ [_ [_ Hdup]]]]].
  destruct Hdup as [duplicates [Hreply Hrest]].
  - exists "github". unfold appears_more_than_once. cbn. lia.
  - exists duplicates. rewrite Hsent, Hreply. split; [reflexivity | exact Hrest].
Defined.

(** ** The per-provider routes *)

(** Two calls are the same call only if they name the same method. *)
Lemma call_eq_name (X Y : Type) (a : ManagerOp X) (b : ManagerOp Y) :
  call a = call b -> method_name a = method_name b.
Proof. intros H. exact (f_equal Call_name H). Qed.

(** C2.  GET /{provider}, when [getCurrentIngestionRecord(provider)]
    resolves: with a record, a 200 whose body has [success: true],
    [status.current_action] (the record's status), [status.next_action_at]
    and [last_error]; with no record and the provider name included in
    [listProviders()], a 200 with [success: true] and
    [status.current_action] equal to "rest complete, waiting to start";
    with no record and the name not listed, a 404 with [success: false] and
    [last_error] equal to "Provider '<name>' not found". *)
Theorem get_provider_status (W : Type) (env : Env W) (req : Request)
    (w w1 : W) (record : option IngestionRecord.t) :
  let p := req.(params).(provider) in
  let x := serve env get_provider req w in
  manager env (getCurrentIngestionRecord p) w = (inr record, w1) ->
  match record with
  | Some r =>
      statusCode x = 200 /\
      sent x = Some (JsObject
                       [("success", JsBool true);
                        ("status",
                         JsObject
                           [("current_action",
                             JsString r.(IngestionRecord.status));
                            ("next_action_at",
                             JsDate r.(IngestionRecord.next_action_at))]);
                        ("last_error", r.(IngestionRecord.last_error))])
  | None =>
      forall (providers : list string) (w2 : W),
        manager env listProviders w1 = (inr providers, w2) ->
        if includes providers p then
          statusCode x = 200 /\
          sent x = Some (JsObject
                           [("success", JsBool true);
                            ("status",
                             JsObject
                               [("current_action",
                                 JsString "rest complete, waiting to start")])])
        else
          statusCode x = 404 /\
          sent x = Some (JsObject
                           [("success", JsBool false);
                            ("status", JsObject []);
                            ("last_error",
                             JsString ("Provider '" ++ p ++ "' not found"))])
  end.
Proof.
  intros p x Hget. subst x p. unfold get_provider.
  destruct record as [r |].
  - replay. split; reflexivity.
  - intros providers w2 Hlist.
    destruct (includes providers _) eqn:Hinc; replay; split; reflexivity.
Qed.

Lemma get_provider_status_witness :
  (* a provider with a current record *)
  sent (serve Fixture.env get_provider (Fixture.request "gitlab")
          Fixture.store)
  = Some (JsObject
            [("success", JsBool true);
             ("status",
              JsObject [("current_action", JsString "canceling");
                        ("next_action_at", JsDate (Date_of 1700000000000))]);
             ("last_error", null)])
  (* a known provider without one *)
  /\ statusCode (serve Fixture.env get_provider (Fixture.request "bitbucket")
                   Fixture.store) = 200
  (* a provider never seen *)
  /\ statusCode (serve Fixture.env get_provider (Fixture.request "svn")
                   Fixture.store) = 404.
Proof.
  split; [| split].
  - exact (proj2 (get_provider_status Fixture.World Fixture.env
                    (Fixture.request "gitlab") Fixture.store Fixture.store
                    _ eq_refl)).
  - exact (proj1 (get_provider_status Fixture.World Fixture.env
                    (Fixture.request "bitbucket") Fixture.store Fixture.store
                    None eq_refl _ Fixture.store eq_refl)).
  - exact (proj1 (get_provider_status Fixture.World Fixture.env
                    (Fixture.request "svn") Fixture.store Fixture.store
                    None eq_refl _ Fixture.store eq_refl)).
Defined.

(** C6.  POST /{provider}/trigger, when
    [getCurrentIngestionRecord(provider)] resolves:
    [triggerNextProviderAction(provider)] is among the manager calls if and
    only if a record came back, and then (the trigger resolving) the reply
    is a 200 with [success: true]; with no record and the provider listed
    by [listProviders()] the reply is a 200 with [success: true] and the
    restarting message, nothing having been triggered; with no record and
    the provider not listed the reply is a 404 with [success: false] and
    message "Provider '<name>' not found". *)
Theorem trigger_only_current (W : Type) (env : Env W) (req : Request)
    (w w1 : W) (record : option IngestionRecord.t) :
  let p := req.(params).(provider) in
  let x := serve env post_trigger req w in
  manager env (getCurrentIngestionRecord p) w = (inr record, w1) ->
  (In (call (triggerNextProviderAction p)) (calls x) <->
   exists r, record = Some r)
  /\ match record with
     | Some _ =>
         forall w2 : W,
           manager env (triggerNextProviderAction p) w1 = (inr tt, w2) ->
           statusCode x = 200 /\
           sent x = Some (JsObject
                            [("success", JsBool true);
                             ("message",
                              JsString (p ++ ": Next action triggered."))])
     | None =>
         forall (providers : list string) (w2 : W),
           manager env listProviders w1 = (inr providers, w2) ->
           calls x = [call (getCurrentIngestionRecord p); call listProviders]
           /\ if includes providers p then
                statusCode x = 200 /\
                sent x = Some (JsObject
                                 [("success", JsBool true);
                                  ("message",
                                   JsString
                                     "Unable to trigger next action (provider is restarting)")])
              else
                statusCode x = 404 /\
                sent x = Some (JsObject
                                 [("success", JsBool false);
                                  ("message",
                                   JsString
                                     ("Provider '" ++ p ++ "' not found"))])
     end.
Proof.
  intros p x Hget. subst x p. unfold post_trigger.
  destruct record as [r |].
  - split.
    + split; [intros _; now exists r |]. intros _. replay.
      destruct (manager env (triggerNextProviderAction _) w1) as [[e | []] w2];
        cbn; right; now left.
    + intros w2 Htrig. replay. split; reflexivity.
  - split.
    + split; [| intros [r Hr]; discriminate]. intros Hin. exfalso.
      revert Hin. replay.
      destruct (manager env listProviders w1) as [[e | providers] w2]; cbn.
      * intros [H | [H | []]]; apply call_eq_name in H; discriminate.
      * destruct (includes providers _); cbn;
          intros [H | [H | []]]; apply call_eq_name in H; discriminate.
    + intros providers w2 Hlist.
      destruct (includes providers _) eqn:Hinc; replay;
        repeat split; reflexivity.
Qed.

Lemma trigger_only_current_witness :
  calls (serve Fixture.env post_trigger (Fixture.request "gitlab")
           Fixture.store)
  = [call (getCurrentIngestionRecord "gitlab");
     call (triggerNextProviderAction "gitlab")]
  /\ In (call (triggerNextProviderAction "gitlab"))
       (calls (serve Fixture.env post_trigger (Fixture.request "gitlab")
                 Fixture.store))
  /\ statusCode (serve Fixture.env post_trigger (Fixture.request "svn")
                   Fixture.store) = 404.
Proof.
  split; [reflexivity | split].
  - apply (proj1 (trigger_only_current Fixture.World Fixture.env
                    (Fixture.request "gitlab") Fixture.store Fixture.store
                    _ eq_refl)).
    now exists (Fixture.row "2" "gitlab" "canceling").
  - exact (proj1 (proj2 (proj2 (trigger_only_current Fixture.World Fixture.env
                    (Fixture.request "svn") Fixture.store Fixture.store
                    None eq_refl) _ Fixture.store eq_refl))).
Defined.

(** C3.  POST /{provider}/cancel for a provider with a current record
    (the clock being such that a day later is still a date): the handler
    reads the clock for [next_action_at], reads it again for
    [ingestion_completed_at], and calls [updateByName(provider, ...)] with
    [status] "resting", [next_action] "nothing (done)",
    [ingestion_completed_at] the time just read and [next_action_at] the
    time read for it plus 24*60*60*1000 ms; no other write is made, and
    (the update resolving) the reply is a 200 with [success: true]. *)
Theorem cancel_rests_for_a_day (W : Type) (env : Env W) (req : Request)
    (w w1 w2 w3 w4 : W) (r : IngestionRecord.t) (t1 t2 : Z) :
  let p := req.(params).(provider) in
  let update :=
    {| IngestionRecordUpdate.next_action := "nothing (done)";
       IngestionRecordUpdate.ingestion_completed_at := Date_of t2;
       IngestionRecordUpdate.next_action_at :=
         Date_of (t1 + 24 * 60 * 60 * 1000);
       IngestionRecordUpdate.status := "resting" |} in
  let x := serve env post_cancel req w in
  manager env (getCurrentIngestionRecord p) w = (inr (Some r), w1) ->
  clock env w1 = (t1, w2) ->
  clock env w2 = (t2, w3) ->
  Z.abs (t1 + 24 * 60 * 60 * 1000) <= 8640000000000000 ->
  manager env (updateByName p update) w3 = (inr tt, w4) ->
  calls x = [call (getCurrentIngestionRecord p);
             call (updateByName p update)]
  /\ world x = w4
  /\ statusCode x = 200
  /\ sent x = Some (JsObject
                      [("success", JsBool true);
                       ("message",
                        JsString (p ++ ": Current ingestion canceled."))]).
Proof.
  intros p update x Hget Hnow1 Hnow2 Hrange Hupd. subst x p update.
  apply Z.leb_le in Hrange.
  unfold serve, start, post_cancel. cbn.
  rewrite Hget. cbn. rewrite Hnow1. cbn. rewrite Hnow2. cbn.
  unfold TimeClip. cbn in Hrange, Hupd. rewrite Hrange, Hupd. cbn.
  repeat split; reflexivity.
Qed.

Lemma cancel_rests_for_a_day_witness :
  Z.abs (1700000000000 + 24 * 60 * 60 * 1000) <= 8640000000000000
  /\ Fixture.journal
       (world (serve Fixture.env post_cancel (Fixture.request "gitlab")
                 Fixture.store))
     = [call (updateByName "gitlab"
                {| IngestionRecordUpdate.next_action := "nothing (done)";
                   IngestionRecordUpdate.ingestion_completed_at :=
                     Date_of 1700000000001;
                   IngestionRecordUpdate.next_action_at :=
                     Date_of 1700086400000;
                   IngestionRecordUpdate.status := "resting" |})]
  /\ statusCode (serve Fixture.env post_cancel (Fixture.request "gitlab")
                   Fixture.store) = 200.
Proof.
  assert (Hrange : Z.abs (1700000000000 + 24 * 60 * 60 * 1000)
                   <= 8640000000000000) by (cbn; lia).
  pose proof (cancel_rests_for_a_day Fixture.World Fixture.env
                (Fixture.request "gitlab") Fixture.store _ _ _ _
                (Fixture.row "2" "gitlab" "canceling")
                1700000000000 1700000000001
                eq_refl eq_refl eq_refl Hrange eq_refl)
    as [_ [Hworld [Hstatus _]]].
  split; [exact Hrange |]. split; [| exact Hstatus].
  rewrite Hworld. reflexivity.
Defined.

(** C4.  POST /{provider}/start for a provider with a current record:
    after [getCurrentIngestionRecord] the handler makes exactly one more
    manager call on the record's id, [setProviderComplete] when the
    record's status is "resting" and [setProviderCanceling] for every other
    status, and (that call resolving) replies 200 with [success: true].  No
    other manager method is invoked, so nothing creates a record. *)
Theorem start_completes_or_cancels (W : Type) (env : Env W) (req : Request)
    (w w1 w2 : W) (r : IngestionRecord.t) :
  let p := req.(params).(provider) in
  let ingestionId := r.(IngestionRecord.id) in
  let next :=
    if String.eqb r.(IngestionRecord.status) "resting"
    then setProviderComplete ingestionId
    else setProviderCanceling ingestionId in
  let x := serve env post_start req w in
  manager env (getCurrentIngestionRecord p) w = (inr (Some r), w1) ->
  manager env next w1 = (inr tt, w2) ->
  (r.(IngestionRecord.status) = "resting" ->
   calls x = [call (getCurrentIngestionRecord p);
              call (setProviderComplete ingestionId)])
  /\ (r.(IngestionRecord.status) <> "resting" ->
      calls x = [call (getCurrentIngestionRecord p);
                 call (setProviderCanceling ingestionId)])
  /\ world x = w2
  /\ statusCode x = 200
  /\ sent x = Some (JsObject
                      [("success", JsBool true);
                       ("message",
                        JsString (p ++ ": Next cycle triggered."))]).
Proof.
  intros p ingestionId next x Hget Hnext. subst x p ingestionId next.
  unfold serve, start, post_start. cbn. rewrite Hget. cbn.
  destruct (String.eqb_spec (IngestionRecord.status r) "resting")
    as [Hrest | Hactive]; cbn; rewrite Hnext; cbn;
    (split; [| split; [| repeat split; reflexivity]]);
    intros H; congruence.
Qed.

Lemma start_completes_or_cancels_witness :
  calls (serve Fixture.env post_start (Fixture.request "ldap") Fixture.store)
  = [call (getCurrentIngestionRecord "ldap"); call (setProviderComplete "4")]
  /\ calls (serve Fixture.env post_start (Fixture.request "gitlab")
              Fixture.store)
     = [call (getCurrentIngestionRecord "gitlab");
        call (setProviderCanceling "2")].
Proof.
  split.
  - apply (start_completes_or_cancels Fixture.World Fixture.env
             (Fixture.request "ldap") Fixture.store _ _
             (Fixture.row "4" "ldap" "resting") eq_refl eq_refl).
    reflexivity.
  - apply (start_completes_or_cancels Fixture.World Fixture.env
             (Fixture.request "gitlab") Fixture.store _ _
             (Fixture.row "2" "gitlab" "canceling") eq_refl eq_refl).
    discriminate.
Defined.

(** *** What [getAll] returns *)

Lemma insert_by_sequence_perm (m : Mark.t) (l : list Mark.t) :
  Permutation (m :: l) (insert_by_sequence m l).
Proof.
  induction l as [| x l IH]; cbn; [reflexivity |].
  destruct (Mark.sequence m <=? Mark.sequence x); [reflexivity |].
  rewrite perm_swap. now apply perm_skip.
Qed.

Lemma order_by_sequence_perm (l : list Mark.t) :
  Permutation l (order_by_sequence l).
Proof.
  induction l as [| m l IH]; cbn; [reflexivity |].
  rewrite <- insert_by_sequence_perm. now apply perm_skip.
Qed.

Lemma insert_by_sequence_ascending (m : Mark.t) (l : list Mark.t) :
  ascending_by_sequence l -> ascending_by_sequence (insert_by_sequence m l).
Proof.
  unfold ascending_by_sequence.
  induction l as [| x l IH]; intros Hl; cbn.
  - constructor; constructor.
  - apply StronglySorted_inv in Hl. destruct Hl as [Hrest Hx].
    destruct (Z.leb_spec (Mark.sequence m) (Mark.sequence x)) as [Hle | Hgt].
    + constructor; [constructor; assumption |].
      constructor; [assumption |].
      apply Forall_forall. intros y Hy.
      rewrite Forall_forall in Hx. specialize (Hx y Hy). lia.
    + constructor; [now apply IH |].
      apply Forall_forall. intros y Hy.
      apply (Permutation_in _ (Permutation_sym (insert_by_sequence_perm m l)))
        in Hy.
      destruct Hy as [<- | Hy]; [lia |].
      rewrite Forall_forall in Hx. now apply Hx.
Qed.

Lemma order_by_sequence_ascending (l : list Mark.t) :
  ascending_by_sequence (order_by_sequence l).
Proof.
  induction l as [| m l IH]; cbn.
  - constructor.
  - now apply insert_by_sequence_ascending.
Qed.

(** Ascending marks with pairwise different sequences ascend strictly. *)
Lemma ascending_NoDup_strict (l : list Mark.t) :
  ascending_by_sequence l -> NoDup (map Mark.sequence l) ->
  strictly_ascending_by_sequence l.
Proof.
  unfold ascending_by_sequence, strictly_ascending_by_sequence.
  induction l as [| x l IH]; intros Hl Hnd; [constructor |].
  apply StronglySorted_inv in Hl. destruct Hl as [Hrest Hx].
  cbn in Hnd. apply NoDup_cons_iff in Hnd. destruct Hnd as [Hnotin Hnd].
  constructor; [now apply IH |].
  apply Forall_forall. intros y Hy.
  rewrite Forall_forall in Hx. specialize (Hx y Hy).
  assert (Mark.sequence x <> Mark.sequence y).
  { intros Heq. apply Hnotin. rewrite Heq. now apply in_map. }
  lia.
Qed.

Lemma getAll_spec (store : MarkStore) (recordId : string) :
  let owned :=
    filter (fun m => String.eqb m.(Mark.ingestion_record_id) recordId)
      store in
  Permutation owned (getAll store recordId)
  /\ ascending_by_sequence (getAll store recordId)
  /\ (forall m,
         In m (getAll store recordId) <->
         In m store /\ m.(Mark.ingestion_record_id) = recordId)
  /\ (NoDup (map Mark.sequence owned) ->
      strictly_ascending_by_sequence (getAll store recordId)).
Proof.
  intros owned. unfold getAll. fold owned.
  pose proof (order_by_sequence_perm owned) as Hperm.
  pose proof (order_by_sequence_ascending owned) as Hasc.
  split; [exact Hperm | split; [exact Hasc | split]].
  - intros m. split.
    + intros Hin.
      apply (Permutation_in _ (Permutation_sym Hperm)) in Hin.
      unfold owned in Hin. apply filter_In in Hin.
      destruct Hin as [Hin Hown]. apply String.eqb_eq in Hown. now split.
    + intros [Hin Hown]. apply (Permutation_in _ Hperm).
      unfold owned. apply filter_In. split; [assumption |].
      now apply String.eqb_eq.
  - intros Hnd. apply ascending_NoDup_strict; [exact Hasc |].
    apply (Permutation_NoDup (Permutation_map Mark.sequence Hperm) Hnd).
Qed.

(** C8.  GET /{provider}/marks, when
    [getCurrentIngestionRecord(provider)] resolves.  With a record, the
    handler asks [getAllMarks] for that record's id and (the call
    resolving) replies 200 with [success: true] and, as [records], the very
    array the manager returned.  With a manager whose [getAllMarks] is the
    mark store's [getAll], [records] therefore holds the marks of the
    current record, all of them and no others, in ascending order of
    [sequence] (strictly ascending when no two marks of the record share a
    sequence), however the store keeps its rows.  With no record and a
    listed provider the reply is a 200 with [success: true] and the message
    "No records yet (provider is restarting)"; with no record and an
    unlisted provider it is a 404. *)
Theorem marks_of_current_record (W : Type) (env : Env W)
    (mark_store : W -> MarkStore) (req : Request) (w w1 : W)
    (record : option IngestionRecord.t) :
  let p := req.(params).(provider) in
  let x := serve env get_marks req w in
  manager env (getCurrentIngestionRecord p) w = (inr record, w1) ->
  match record with
  | Some r =>
      let recordId := r.(IngestionRecord.id) in
      (forall (marks : JsValue) (w2 : W),
          manager env (getAllMarks recordId) w1 = (inr marks, w2) ->
          calls x = [call (getCurrentIngestionRecord p);
                     call (getAllMarks recordId)]
          /\ statusCode x = 200
          /\ sent x = Some (JsObject [("success", JsBool true);
                                      ("records", marks)]))
      /\ (serves_marks env mark_store ->
          let marks := getAll (mark_store w1) recordId in
          let owned :=
            filter
              (fun m => String.eqb m.(Mark.ingestion_record_id) recordId)
              (mark_store w1) in
          statusCode x = 200
          /\ sent x = Some (JsObject
                              [("success", JsBool true);
                               ("records", JsArray (map Mark_to_js marks))])
          /\ ascending_by_sequence marks
          /\ Permutation owned marks
          /\ (forall m,
                 In m marks <->
                 In m (mark_store w1)
                 /\ m.(Mark.ingestion_record_id) = recordId)
          /\ (NoDup (map Mark.sequence owned) ->
              strictly_ascending_by_sequence marks))
  | None =>
      forall (providers : list string) (w2 : W),
        manager env listProviders w1 = (inr providers, w2) ->
        if includes providers p then
          statusCode x = 200 /\
          sent x = Some (JsObject
                           [("success", JsBool true);
                            ("message",
                             JsString
                               "No records yet (provider is restarting)")])
        else
          statusCode x = 404 /\
          exists reply,
            sent x = Some reply
            /\ prop "success" reply = Some (JsBool false)
  end.
Proof.
  intros p x Hget. subst x p. unfold get_marks.
  destruct record as [r |].
  - cbv zeta. split.
    + intros marks w2 Hmarks. replay. repeat split; reflexivity.
    + intros Hserves.
      pose proof (Hserves (IngestionRecord.id r) w1) as Hmarks.
      destruct (getAll_spec (mark_store w1) (IngestionRecord.id r))
        as [Hperm [Hasc [Hin Hstrict]]].
      replay.
      split; [reflexivity | split; [reflexivity |]].
      split; [exact Hasc | split; [exact Hperm | split; assumption]].
  - intros providers w2 Hlist.
    destruct (includes providers _) eqn:Hinc; replay.
    + split; reflexivity.
    + split; [reflexivity |]. eexists. split; reflexivity.
Qed.

Lemma Marked_serves_marks : serves_marks Marked.env snd.
Proof. intros recordId w. reflexivity. Qed.

Lemma marks_of_current_record_witness :
  serves_marks Marked.env snd
  /\ sent (serve Marked.env get_marks (Fixture.request "gitlab")
             Marked.store)
     = Some (JsObject
               [("success", JsBool true);
                ("records",
                 JsArray (map Mark_to_js
                            [Marked.mark "m1" "2" "page-1" 0;
                             Marked.mark "m2" "2" "page-2" 1;
                             Marked.mark "m3" "2" "page-3" 2]))])
  /\ strictly_ascending_by_sequence (getAll (snd Marked.store) "2")
  /\ statusCode (serve Marked.env get_marks (Fixture.request "svn")
                   Marked.store) = 404.
Proof.
  pose proof (proj2 (marks_of_current_record Marked.World Marked.env snd
                       (Fixture.request "gitlab") Marked.store Marked.store
                       (Some (Fixture.row "2" "gitlab" "canceling")) eq_refl)
                Marked_serves_marks)
    as [_ [Hsent [_ [_ [_ Hstrict]]]]].
  split; [exact Marked_serves_marks | split; [exact Hsent | split]].
  - apply Hstrict. cbn. repeat constructor; cbn; intuition discriminate.
  - exact (proj1 (marks_of_current_record Marked.World Marked.env snd
                    (Fixture.request "svn") Marked.store Marked.store
                    None eq_refl _ Marked.store eq_refl)).
Defined.

(** C9.  DELETE /{provider}/marks, for every provider name and every
    state of the stores: the only manager call is
    [clearFinishedIngestions(provider)] (neither
    [getCurrentIngestionRecord] nor [listProviders] is consulted), the
    handler never sets a 404, and once the call resolves to [deletions] the
    reply is a 200 with [success: true] and that [deletions] value. *)
Theorem delete_marks_always_succeeds (W : Type) (env : Env W)
    (req : Request) (w : W) :
  let p := req.(params).(provider) in
  let x := serve env delete_marks req w in
  calls x = [call (clearFinishedIngestions p)]
  /\ statusCode x = 200
  /\ forall (deletions : JsValue) (w1 : W),
       manager env (clearFinishedIngestions p) w = (inr deletions, w1) ->
       sent x = Some (JsObject
                        [("success", JsBool true);
                         ("message",
                          JsString
                            ("Expired marks for provider '" ++ p
                             ++ "' removed."));
                         ("deletions", deletions)])
       /\ forwarded x = None.
Proof.
  intros p x. subst x p. unfold serve, start, delete_marks. cbn.
  destruct (manager env (clearFinishedIngestions _) w) as [[e | d] w1] eqn:Hdel;
    cbn.
  - split; [reflexivity | split; [reflexivity |]].
    intros d w2 H. discriminate.
  - split; [reflexivity | split; [reflexivity |]].
    intros d' w2 H. inversion H. subst. split; reflexivity.
Qed.

Lemma delete_marks_always_succeeds_witness :
  (* "svn" has no row and is not a known provider *)
  Fixture.current "svn" Fixture.store = None
  /\ includes (Fixture.known Fixture.store) "svn" = false
  /\ statusCode (serve Fixture.env delete_marks (Fixture.request "svn")
                   Fixture.store) = 200
  /\ sent (serve Fixture.env delete_marks (Fixture.request "svn")
             Fixture.store)
     = Some (JsObject
               [("success", JsBool true);
                ("message",
                 JsString "Expired marks for provider 'svn' removed.");
                ("deletions", JsNumber 0)]).
Proof.
  pose proof (delete_marks_always_succeeds Fixture.World Fixture.env
                (Fixture.request "svn") Fixture.store)
    as [_ [Hstatus Hreply]].
  split; [reflexivity | split; [reflexivity | split; [exact Hstatus |]]].
  exact (proj1 (Hreply (JsNumber 0) _ eq_refl)).
Defined.

(** C10.  On each of GET /{provider}, POST /{provider}/trigger,
    POST /{provider}/start, POST /{provider}/cancel and
    GET /{provider}/marks, a request for a provider with no current record
    that [listProviders()] does not include is answered 404 after exactly
    two manager calls, [getCurrentIngestionRecord] and [listProviders],
    neither of which is a writing method; the collaborators' state is the
    one those two reads left, hence the initial one whenever the manager's
    reading methods leave the stores untouched. *)
Theorem unknown_provider_writes_nothing (W : Type) (env : Env W)
    (req : Request) (w w1 w2 : W) (providers : list string) (h : Handler) :
  let p := req.(params).(provider) in
  let x := serve env h req w in
  In h discriminating_routes ->
  manager env (getCurrentIngestionRecord p) w = (inr None, w1) ->
  manager env listProviders w1 = (inr providers, w2) ->
  includes providers p = false ->
  statusCode x = 404
  /\ calls x = [call (getCurrentIngestionRecord p); call listProviders]
  /\ Forall (fun c => Call_mutates c = false) (calls x)
  /\ published x = []
  /\ world x = w2
  /\ (reads_preserve env -> world x = w).
Proof.
  intros p x Hroute Hget Hlist Hinc. subst x p.
  assert (Hpure : reads_preserve env -> w2 = w).
  { intros Hreads.
    pose proof (Hreads _ (getCurrentIngestionRecord (provider (params req)))
                  w eq_refl) as H1.
    pose proof (Hreads _ listProviders w1 eq_refl) as H2.
    rewrite Hget in H1. rewrite Hlist in H2. cbn in H1, H2. congruence. }
  unfold discriminating_routes in Hroute. cbn in Hroute.
  destruct Hroute as [<- | [<- | [<- | [<- | [<- | []]]]]]; replay;
    (repeat split; try reflexivity; try assumption;
     repeat constructor).
Qed.

Lemma Fixture_reads_preserve : reads_preserve Fixture.env.
Proof.
  intros X op w Hread. destruct op; cbn in *; try discriminate; reflexivity.
Qed.

Lemma unknown_provider_writes_nothing_witness :
  Fixture.current "svn" Fixture.store = None
  /\ includes (Fixture.known Fixture.store) "svn" = false
  /\ Forall
       (fun h =>
          statusCode (serve Fixture.env h (Fixture.request "svn")
                        Fixture.store) = 404
          /\ world (serve Fixture.env h (Fixture.request "svn")
                      Fixture.store) = Fixture.store)
       discriminating_routes.
Proof.
  split; [reflexivity | split; [reflexivity |]].
  apply Forall_forall. intros h Hroute.
  pose proof (unknown_provider_writes_nothing Fixture.World Fixture.env
                (Fixture.request "svn") Fixture.store Fixture.store
                Fixture.store (Fixture.known Fixture.store) h
                Hroute eq_refl eq_refl eq_refl)
    as [Hstatus [_ [_ [_ [_ Hworld]]]]].
  split; [exact Hstatus | exact (Hworld Fixture_reads_preserve)].
Defined.

(** ** POST /{provider}/delta *)

Lemma contains_prefix (hay needle : string) :
  String.prefix needle hay = true -> contains hay needle = true.
Proof. intros H. destruct hay; cbn [contains]; rewrite H; reflexivity. Qed.

Lemma contains_append (pre s : string) : contains (pre ++ s) s = true.
Proof.
  induction pre as [| c pre IH].
  - apply contains_prefix. cbn [append].
    induction s as [| c s IH]; [reflexivity |].
    cbn. destruct (Ascii.ascii_dec c c); [exact IH | congruence].
  - cbn [contains append].
    destruct (String.prefix s (String c (pre ++ s))); [reflexivity |].
    exact IH.
Qed.

(** C7, as worded, fails when the publisher is not initialized: the reply
    is a 500 with [success: false], but its message is the fixed text
    "The payload could not be processed!" and carries no stringified form
    of the error "Event broker not initialized!". *)
Lemma delta_contract_fails :
  ~ delta_contract Fixture.stringifyError Fixture.env constructor
      (Fixture.request "github") Fixture.store.
Proof.
  unfold delta_contract, echoes_error. cbn.
  intros [_ [reply [m [Hsent [_ [Hmessage Hecho]]]]]].
  injection Hsent as <-. cbn in Hmessage. injection Hmessage as <-.
  vm_compute in Hecho. discriminate.
Qed.

(** C7, amended.  POST /{provider}/delta: when the publisher is not
    initialized nothing is published, the reply is a 500 with
    [success: false] and the fixed message "The payload could not be
    processed!", and the error "Event broker not initialized!" is thrown
    after the reply; when it is initialized the request body is published
    once on topic "<provider>-push", and the reply is a 200 with
    [success: true] if publish resolves, or, if publish rejects with [e], a
    500 with [success: false] whose message is "There was an error
    submitting the payload: " followed by [stringifyError e]. *)
Theorem delta_publishes_or_fails (W : Type) (stringifyError : Error -> string)
    (env : Env W) (this : IncrementalProviderRouter) (req : Request) (w : W) :
  let p := req.(params).(provider) in
  let event := {| topic := p ++ "-push"; eventPayload := req.(body) |} in
  let x := serve env (post_delta stringifyError this) req w in
  match this.(eventBroker) with
  | None =>
      published x = []
      /\ statusCode x = 500
      /\ sent x = Some (JsObject
                          [("success", JsBool false);
                           ("provider", JsString p);
                           ("message",
                            JsString "The payload could not be processed!")])
      /\ forwarded x = Some (new_Error "Event broker not initialized!")
  | Some b =>
      published x = [(b, event)]
      /\ forwarded x = None
      /\ match fst (broker_publish env b event w) with
         | inr _ =>
             statusCode x = 200
             /\ sent x = Some (JsObject
                                 [("success", JsBool true);
                                  ("provider", JsString p);
                                  ("message", JsString "Payload submitted.")])
         | inl e =>
             echoes_error stringifyError x e
             /\ sent x = Some (JsObject
                                 [("success", JsBool false);
                                  ("provider", JsString p);
                                  ("message",
                                   JsString
                                     ("There was an error submitting the payload: "
                                      ++ stringifyError e))])
         end
  end.
Proof.
  intros p event x. subst x event p. unfold serve, start, post_delta.
  destruct (eventBroker this) as [b |]; cbn.
  - destruct (broker_publish env b _ w) as [[e | []] w1]; cbn.
    + repeat split; try reflexivity.
      eexists. eexists. repeat split; try reflexivity.
      cbn. apply (contains_append "There was an error submitting the payload: ").
    + repeat split; reflexivity.
  - repeat split; reflexivity.
Qed.

Lemma delta_publishes_or_fails_witness :
  (* no broker set *)
  forwarded (serve Fixture.env (post_delta Fixture.stringifyError constructor)
               (Fixture.request "github") Fixture.store)
  = Some (new_Error "Event broker not initialized!")
  (* a broker that accepts the event *)
  /\ published
       (serve Fixture.env
          (post_delta Fixture.stringifyError
             (setEventBroker constructor (broker_ref 0)))
          (Fixture.request "github") Fixture.store)
     = [(broker_ref 0,
         {| topic := "github-push";
            eventPayload := JsObject [("kind", JsString "delta")] |})]
  (* a broker that rejects it *)
  /\ sent
       (serve Fixture.env
          (post_delta Fixture.stringifyError
             (setEventBroker constructor (broker_ref 1)))
          (Fixture.request "github") Fixture.store)
     = Some (JsObject
               [("success", JsBool false);
                ("provider", JsString "github");
                ("message",
                 JsString
                   "There was an error submitting the payload: Error: bus down")]).
Proof.
  split; [| split].
  - exact (proj2 (proj2 (proj2
             (delta_publishes_or_fails Fixture.World Fixture.stringifyError
                Fixture.env constructor (Fixture.request "github")
                Fixture.store)))).
  - exact (proj1
             (delta_publishes_or_fails Fixture.World Fixture.stringifyError
                Fixture.env (setEventBroker constructor (broker_ref 0))
                (Fixture.request "github") Fixture.store)).
  - exact (proj2 (proj2 (proj2
             (delta_publishes_or_fails Fixture.World Fixture.stringifyError
                Fixture.env (setEventBroker constructor (broker_ref 1))
                (Fixture.request "github") Fixture.store)))).
Defined.

(** ** Behaviour common to the routes *)



(** X2.  On the five routes that look the provider up, the status is 404
    exactly when [getCurrentIngestionRecord] resolved to no record and
    [listProviders()] resolved to a list without the provider; every other
    run leaves the status at 200, and a 404 always carries a body with
    [success: false]. *)
Theorem not_found_iff_unknown (W : Type) (env : Env W) (req : Request)
    (w : W) (h : Handler) :
  let p := req.(params).(provider) in
  let x := serve env h req w in
  In h discriminating_routes ->
  (statusCode x = 404 <-> no_current_record env p false w)
  /\ (statusCode x = 200 \/ statusCode x = 404)
  /\ (statusCode x = 404 ->
      exists reply,
        sent x = Some reply /\ prop "success" reply = Some (JsBool false)).
Proof.
  intros p x Hroute. subst x p. unfold no_current_record.
  unfold discriminating_routes in Hroute.
  each_route Hroute.
  all: split; [split |].
  all: try (intros (w1 & providers & w2 & Hget & Hlist & Hinc); replay;
            reflexivity).
  all: explore; try discriminate; try (intros _; eauto 10).
  all: try (split; [now left | intros H; discriminate]).
  all: split; [now right | intros _; eexists; split; reflexivity].
Qed.

Lemma not_found_iff_unknown_witness :
  In post_start discriminating_routes
  /\ no_current_record Fixture.env "svn" false Fixture.store
  /\ statusCode (serve Fixture.env post_start (Fixture.request "svn")
                   Fixture.store) = 404.
Proof.
  assert (Hroute : In post_start discriminating_routes) by pick_route.
  assert (Hunknown : no_current_record Fixture.env "svn" false Fixture.store).
  { exists Fixture.store, (Fixture.known Fixture.store), Fixture.store.
    repeat split; reflexivity. }
  split; [exact Hroute | split; [exact Hunknown |]].
  exact (proj2 (proj1 (not_found_iff_unknown Fixture.World Fixture.env
                         (Fixture.request "svn") Fixture.store post_start
                         Hroute)) Hunknown).
Defined.

(** X3.  A provider that [listProviders()] knows but that has no current
    record: each of the five lookup routes replies 200 with
    [success: true] after the two reads and nothing else (no write, no
    publish, no error forwarded), and leaves the stores as they were when
    the reading methods do; POST /{provider}/start answers "Provider is
    already restarting" and POST /{provider}/cancel "Provider is currently
    restarting, please wait." *)
Theorem known_provider_without_record (W : Type) (env : Env W)
    (req : Request) (w : W) (h : Handler) :
  let p := req.(params).(provider) in
  let x := serve env h req w in
  In h discriminating_routes ->
  no_current_record env p true w ->
  statusCode x = 200
  /\ (exists reply,
         sent x = Some reply /\ prop "success" reply = Some (JsBool true))
  /\ calls x = [call (getCurrentIngestionRecord p); call listProviders]
  /\ published x = []
  /\ forwarded x = None
  /\ (reads_preserve env -> world x = w)
  /\ sent (serve env post_start req w)
     = Some (JsObject
               [("success", JsBool true);
                ("message", JsString "Provider is already restarting")])
  /\ sent (serve env post_cancel req w)
     = Some (JsObject
               [("success", JsBool true);
                ("message",
                 JsString "Provider is currently restarting, please wait.")]).
Proof.
  intros p x Hroute (w1 & providers & w2 & Hget & Hlist & Hinc). subst x p.
  assert (Hpure : reads_preserve env -> w2 = w).
  { intros Hreads. settle_reads Hreads. reflexivity. }
  unfold discriminating_routes in Hroute.
  each_route Hroute; replay;
    (split; [reflexivity |]);
    (split; [eexists; split; reflexivity |]);
    repeat (split; [first [reflexivity | assumption] |]); reflexivity.
Qed.

Lemma known_provider_without_record_witness :
  In post_cancel discriminating_routes
  /\ no_current_record Fixture.env "bitbucket" true Fixture.store
  /\ calls (serve Fixture.env post_cancel (Fixture.request "bitbucket")
              Fixture.store)
     = [call (getCurrentIngestionRecord "bitbucket"); call listProviders]
  /\ world (serve Fixture.env post_cancel (Fixture.request "bitbucket")
              Fixture.store) = Fixture.store.
Proof.
  assert (Hroute : In post_cancel discriminating_routes) by pick_route.
  assert (Hknown : no_current_record Fixture.env "bitbucket" true
                     Fixture.store).
  { exists Fixture.store, (Fixture.known Fixture.store), Fixture.store.
    repeat split; reflexivity. }
  pose proof (known_provider_without_record Fixture.World Fixture.env
                (Fixture.request "bitbucket") Fixture.store post_cancel
                Hroute Hknown)
    as [_ [_ [Hcalls [_ [_ [Hworld _]]]]]].
  split; [exact Hroute | split; [exact Hknown | split; [exact Hcalls |]]].
  exact (Hworld Fixture_reads_preserve).
Defined.

(** A GET route makes no writing call and publishes nothing. *)
Lemma get_route_calls (W : Type) (env : Env W) (req : Request) (w : W)
    (h : Handler) :
  In h get_routes ->
  Forall (fun c => Call_mutates c = false) (calls (serve env h req w))
  /\ published (serve env h req w) = [].
Proof.
  intros Hroute. unfold get_routes in Hroute.
  each_route Hroute; explore; split; try reflexivity; repeat constructor.
Qed.

(** With reading methods that do not write, a GET route hands the stores
    back as it found them. *)
Lemma get_route_world (W : Type) (env : Env W) (req : Request) (w : W)
    (h : Handler) :
  reads_preserve env -> In h get_routes -> world (serve env h req w) = w.
Proof.
  intros Hreads Hroute. unfold get_routes in Hroute.
  each_route Hroute; explore; settle_reads Hreads; reflexivity.
Qed.

(** X4.  The GET routes (/health, /{provider}, /{provider}/marks) are
    safe: on every run, also one cut short by a rejection, each manager
    call is a reading method and nothing is published; when the manager's
    reading methods leave the stores untouched, so does the request. *)
Theorem get_routes_only_read (W : Type) (env : Env W) (req : Request)
    (w : W) (h : Handler) :
  let x := serve env h req w in
  In h get_routes ->
  Forall (fun c => Call_mutates c = false) (calls x)
  /\ published x = []
  /\ (reads_preserve env -> world x = w).
Proof.
  intros x Hroute. subst x.
  destruct (get_route_calls W env req w h Hroute) as [Hcalls Hpublished].
  split; [exact Hcalls | split; [exact Hpublished |]].
  intros Hreads. now apply get_route_world.
Qed.

Lemma get_routes_only_read_witness :
  In get_marks get_routes
  /\ Forall (fun c => Call_mutates c = false)
       (calls (serve Fixture.env get_marks (Fixture.request "gitlab")
                 Fixture.store))
  /\ world (serve Fixture.env get_marks (Fixture.request "gitlab")
              Fixture.store) = Fixture.store.
Proof.
  assert (Hroute : In get_marks get_routes) by pick_route.
  pose proof (get_routes_only_read Fixture.World Fixture.env
                (Fixture.request "gitlab") Fixture.store get_marks Hroute)
    as [Hcalls [_ Hworld]].
  split; [exact Hroute | split; [exact Hcalls |]].
  exact (Hworld Fixture_reads_preserve).
Defined.

(** X5.  With reading methods that do not write, a GET request can be
    repeated: served again from the state the first run left, it gets the
    same status, the same body and the same outcome. *)
Theorem get_is_repeatable (W : Type) (env : Env W) (req : Request) (w : W)
    (h : Handler) :
  let first := serve env h req w in
  let second := serve env h req (world first) in
  In h get_routes ->
  reads_preserve env ->
  statusCode second = statusCode first
  /\ sent second = sent first
  /\ forwarded second = forwarded first
  /\ world second = w.
Proof.
  intros first second Hroute Hreads. subst second first.
  rewrite (get_route_world W env req w h Hreads Hroute).
  repeat split. now apply get_route_world.
Qed.

Lemma get_is_repeatable_witness :
  In get_provider get_routes
  /\ reads_preserve Fixture.env
  /\ sent (serve Fixture.env get_provider (Fixture.request "ldap")
             (world (serve Fixture.env get_provider (Fixture.request "ldap")
                       Fixture.store)))
     = sent (serve Fixture.env get_provider (Fixture.request "ldap")
               Fixture.store).
Proof.
  assert (Hroute : In get_provider get_routes) by pick_route.
  split; [exact Hroute | split; [exact Fixture_reads_preserve |]].
  exact (proj1 (proj2 (get_is_repeatable Fixture.World Fixture.env
                         (Fixture.request "ldap") Fixture.store get_provider
                         Hroute Fixture_reads_preserve))).
Defined.

(** X6.  On POST /{provider}/trigger, /start and /cancel a writing manager
    method is called only if [getCurrentIngestionRecord] resolved to a
    record: when it rejects, or finds none, the request writes nothing,
    whether the provider is known or not. *)
Theorem writes_need_current_record (W : Type) (env : Env W) (req : Request)
    (w : W) (h : Handler) (c : Call) :
  let p := req.(params).(provider) in
  let x := serve env h req w in
  In h acting_routes ->
  In c (calls x) ->
  Call_mutates c = true ->
  exists r w1,
    manager env (getCurrentIngestionRecord p) w = (inr (Some r), w1).
Proof.
  intros p x Hroute. subst x p. unfold acting_routes in Hroute.
  each_route Hroute; explore; intros Hin Hwrite; eauto;
    cbn in Hin;
    repeat match type of Hin with
           | _ \/ _ => destruct Hin as [<- | Hin]
           | False => destruct Hin
           end;
    discriminate.
Qed.

Lemma writes_need_current_record_witness :
  In post_start acting_routes
  /\ In (call (setProviderCanceling "2"))
       (calls (serve Fixture.env post_start (Fixture.request "gitlab")
                 Fixture.store))
  /\ exists r w1,
       manager Fixture.env (getCurrentIngestionRecord "gitlab") Fixture.store
       = (inr (Some r), w1).
Proof.
  assert (Hroute : In post_start acting_routes) by pick_route.
  assert (Hin : In (call (setProviderCanceling "2"))
                  (calls (serve Fixture.env post_start
                            (Fixture.request "gitlab") Fixture.store)))
    by (right; left; reflexivity).
  split; [exact Hroute | split; [exact Hin |]].
  exact (writes_need_current_record Fixture.World Fixture.env
           (Fixture.request "gitlab") Fixture.store post_start _
           Hroute Hin eq_refl).
Defined.

(** X7.  What one request can cost: a route that talks to the manager makes
    at most two manager calls, at most one of them a writing method,
    publishes nothing, and leaves the status at 200 or sets 404; it never
    sets a 5xx itself. *)
Theorem request_budget (W : Type) (env : Env W) (req : Request) (w : W)
    (h : Handler) :
  let x := serve env h req w in
  In h manager_routes ->
  (length (calls x) <= 2)%nat
  /\ (length (filter Call_mutates (calls x)) <= 1)%nat
  /\ published x = []
  /\ (statusCode x = 200 \/ statusCode x = 404).
Proof.
  intros x Hroute. subst x.
  each_route Hroute; explore;
    (split; [cbn; lia | split; [cbn; lia | split; [reflexivity |]]]);
    first [now left | now right].
Qed.

Lemma request_budget_witness :
  In post_cancel manager_routes
  /\ length (calls (serve Fixture.env post_cancel (Fixture.request "gitlab")
                      Fixture.store)) = 2%nat
  /\ (length (filter Call_mutates
                (calls (serve Fixture.env post_cancel
                          (Fixture.request "gitlab") Fixture.store)))
      <= 1)%nat.
Proof.
  assert (Hroute : In post_cancel manager_routes) by pick_route.
  split; [exact Hroute | split; [reflexivity |]].
  exact (proj1 (proj2 (request_budget Fixture.World Fixture.env
                         (Fixture.request "gitlab") Fixture.store
                         post_cancel Hroute))).
Defined.




(** X9.  With the database unreachable (every manager method rejects with
    [e]), each route that talks to the manager gives up after its first
    call: one manager call, nothing sent, nothing logged, the state
    untouched, and [e] itself handed to the error handler. *)
Theorem outage_is_forwarded (W : Type) (env : Env W) (req : Request)
    (w : W) (h : Handler) (e : Error) :
  let x := serve env h req w in
  manager_down env e ->
  In h manager_routes ->
  length (calls x) = 1%nat
  /\ sent x = None
  /\ forwarded x = Some e
  /\ logged x = []
  /\ world x = w.
Proof.
  intros x Hdown Hroute. subst x.
  each_route Hroute; unfold serve, start; cbn; rewrite Hdown; cbn;
    repeat split; reflexivity.
Qed.

Lemma outage_is_forwarded_witness :
  manager_down Outage.env Outage.refused
  /\ In get_health manager_routes
  /\ forwarded (serve Outage.env get_health (Fixture.request "")
                  Fixture.store) = Some Outage.refused.
Proof.
  assert (Hdown : manager_down Outage.env Outage.refused)
    by (intros X op w; reflexivity).
  assert (Hroute : In get_health manager_routes) by pick_route.
  split; [exact Hdown | split; [exact Hroute |]].
  exact (proj1 (proj2 (proj2 (outage_is_forwarded Fixture.World Outage.env
                                (Fixture.request "") Fixture.store get_health
                                Outage.refused Hdown Hroute)))).
Defined.

(** X10.  POST /{provider}/delta stays away from the ingestion state: on
    every run it calls no manager method and writes no log line, publishes
    at most one event, always hands a body to [res.json], and changes the
    collaborators' state only through [publish] itself (not at all when no
    broker is set). *)
Theorem delta_spares_the_manager (W : Type) (stringifyError : Error -> string)
    (env : Env W) (this : IncrementalProviderRouter) (req : Request) (w : W) :
  let event :=
    {| topic := req.(params).(provider) ++ "-push";
       eventPayload := req.(body) |} in
  let x := serve env (post_delta stringifyError this) req w in
  calls x = []
  /\ logged x = []
  /\ (length (published x) <= 1)%nat
  /\ sent x <> None
  /\ world x = match this.(eventBroker) with
               | None => w
               | Some b => snd (broker_publish env b event w)
               end.
Proof.
  intros event x. subst x event. unfold serve, start, post_delta.
  destruct (eventBroker this) as [b |]; cbn.
  - destruct (broker_publish env b _ w) as [[e | []] w1]; cbn;
      repeat split; try reflexivity; try lia; discriminate.
  - repeat split; try reflexivity; try lia; discriminate.
Qed.

(** X11.  The broker in use is the one given to the latest
    [setEventBroker]: a freshly constructed router publishes nothing and
    answers every delta with a 500, and after [setEventBroker] has run,
    also more than once, the request body goes exactly once to the last
    broker set, on topic "<provider>-push", and no error reaches the error
    handler. *)
Theorem delta_uses_latest_broker (W : Type) (stringifyError : Error -> string)
    (env : Env W) (this : IncrementalProviderRouter) (b1 b2 : EventBroker)
    (req : Request) (w : W) :
  let event :=
    {| topic := req.(params).(provider) ++ "-push";
       eventPayload := req.(body) |} in
  let fresh := serve env (post_delta stringifyError constructor) req w in
  let once :=
    serve env (post_delta stringifyError (setEventBroker this b1)) req w in
  let twice :=
    serve env
      (post_delta stringifyError
         (setEventBroker (setEventBroker this b1) b2)) req w in
  (published fresh = [] /\ statusCode fresh = 500)
  /\ (published once = [(b1, event)] /\ forwarded once = None)
  /\ (published twice = [(b2, event)] /\ forwarded twice = None).
Proof.
  intros event fresh once twice. subst fresh once twice event.
  unfold serve, start, post_delta. cbn.
  split; [split; reflexivity |].
  split.
  - destruct (broker_publish env b1 _ w) as [[e | []] w1]; cbn;
      split; reflexivity.
  - destruct (broker_publish env b2 _ w) as [[e | []] w1]; cbn;
      split; reflexivity.
Qed.

(** X12.  Error-level logging: GET /{provider} and GET /{provider}/marks
    write the line "<provider> - No ingestion record found in the
    database!" exactly when they answer 404 and no other error line ever;
    POST /{provider}/trigger, /start and /cancel never log at error level,
    not even on their 404. *)
Theorem error_log_iff_not_found (W : Type) (env : Env W) (req : Request)
    (w : W) (h : Handler) (m : string) :
  let p := req.(params).(provider) in
  let x := serve env h req w in
  (In h error_routes ->
   (In (error, m) (logged x) <->
    statusCode x = 404
    /\ m = (p ++ " - No ingestion record found in the database!")%string))
  /\ (In h acting_routes -> ~ In (error, m) (logged x)).
Proof.
  intros p x. subst x p. split; intros Hroute.
  - unfold error_routes in Hroute.
    each_route Hroute; explore;
      (split;
       [ intros Hin; cbn in Hin;
         repeat match type of Hin with
                | _ \/ _ => destruct Hin as [Hin | Hin]
                | False => destruct Hin
                end;
         try discriminate;
         injection Hin as <-; split; reflexivity
       | intros [Hstatus ->]; try discriminate; now left ]).
  - unfold acting_routes in Hroute.
    each_route Hroute; explore; intros Hin; cbn in Hin;
      repeat match type of Hin with
             | _ \/ _ => destruct Hin as [Hin | Hin]
             | False => destruct Hin
             end;
      discriminate.
Qed.

Lemma error_log_iff_not_found_witness :
  In get_marks error_routes
  /\ statusCode (serve Fixture.env get_marks (Fixture.request "svn")
                   Fixture.store) = 404
  /\ In (error, "svn - No ingestion record found in the database!")
       (logged (serve Fixture.env get_marks (Fixture.request "svn")
                  Fixture.store))
  /\ In post_trigger acting_routes
  /\ ~ In (error, "svn - No ingestion record found in the database!")
         (logged (serve Fixture.env post_trigger (Fixture.request "svn")
                    Fixture.store)).
Proof.
  assert (Hmarks : In get_marks error_routes) by pick_route.
  assert (Htrigger : In post_trigger acting_routes) by pick_route.
  split; [exact Hmarks | split; [reflexivity | split; [| split]]].
  - apply (proj1 (error_log_iff_not_found Fixture.World Fixture.env
                    (Fixture.request "svn") Fixture.store get_marks _)
             Hmarks).
    split; reflexivity.
  - exact Htrigger.
  - exact (proj2 (error_log_iff_not_found Fixture.World Fixture.env
                    (Fixture.request "svn") Fixture.store post_trigger _)
             Htrigger).
Defined.

(** X13.  Debug-level logging: on POST /{provider}/trigger, /start, /cancel
    and GET /{provider}/marks the only debug line is
    "<provider> - Ingestion record found", and it is written exactly when
    no current record was found and [listProviders()] includes the
    provider, never when a record was found. *)
Theorem debug_log_iff_no_record (W : Type) (env : Env W) (req : Request)
    (w : W) (h : Handler) (m : string) :
  let p := req.(params).(provider) in
  let x := serve env h req w in
  In h debug_routes ->
  (In (debug, m) (logged x) <->
   m = (p ++ " - Ingestion record found")%string
   /\ no_current_record env p true w).
Proof.
  intros p x Hroute. subst x p. unfold no_current_record.
  unfold debug_routes in Hroute.
  each_route Hroute.
  all: split;
    [ explore; intros Hin; cbn in Hin;
      repeat match type of Hin with
             | _ \/ _ => destruct Hin as [Hin | Hin]
             | False => destruct Hin
             end;
      try discriminate;
      injection Hin as <-; split; [reflexivity | eauto 10]
    | intros [-> (w1 & providers & w2 & Hget & Hlist & Hinc)]; replay;
      now left ].
Qed.

Lemma debug_log_iff_no_record_witness :
  In post_start debug_routes
  /\ no_current_record Fixture.env "bitbucket" true Fixture.store
  /\ In (debug, "bitbucket - Ingestion record found")
       (logged (serve Fixture.env post_start (Fixture.request "bitbucket")
                  Fixture.store)).
Proof.
  assert (Hroute : In post_start debug_routes) by pick_route.
  assert (Hknown : no_current_record Fixture.env "bitbucket" true
                     Fixture.store).
  { exists Fixture.store, (Fixture.known Fixture.store), Fixture.store.
    repeat split; reflexivity. }
  split; [exact Hroute | split; [exact Hknown |]].
  apply (proj2 (debug_log_iff_no_record Fixture.World Fixture.env
                  (Fixture.request "bitbucket") Fixture.store post_start _
                  Hroute)).
  split; [reflexivity | exact Hknown].
Defined.

(** X14.  POST /cleanup and DELETE /{provider} do no lookup and add no
    wrapper: the one manager call is [cleanupProviders()], respectively
    the writing method [purgeAndResetProvider(provider)] (made also for a
    provider no record and no listing knows), the status stays 200, and
    once the call resolves the body is the manager's result as it is. *)
Theorem cleanup_and_purge_pass_through (W : Type) (env : Env W)
    (req : Request) (w : W) :
  let p := req.(params).(provider) in
  let cleanup := serve env post_cleanup req w in
  let purge := serve env delete_provider req w in
  (calls cleanup = [call cleanupProviders]
   /\ statusCode cleanup = 200
   /\ forall result w1,
        manager env cleanupProviders w = (inr result, w1) ->
        sent cleanup = Some result /\ world cleanup = w1)
  /\ (calls purge = [call (purgeAndResetProvider p)]
      /\ statusCode purge = 200
      /\ forall result w1,
           manager env (purgeAndResetProvider p) w = (inr result, w1) ->
           sent purge = Some result /\ world purge = w1).
Proof.
  intros p cleanup purge. subst cleanup purge p. split; explore;
    (split; [reflexivity | split; [reflexivity |]]);
    intros result w1 H; inversion H; subst; split; reflexivity.
Qed.

Lemma cleanup_and_purge_pass_through_witness :
  no_current_record Fixture.env "svn" false Fixture.store
  /\ sent (serve Fixture.env delete_provider (Fixture.request "svn")
             Fixture.store) = Some (JsObject [])
  /\ Fixture.journal
       (world (serve Fixture.env delete_provider (Fixture.request "svn")
                 Fixture.store))
     = [call (purgeAndResetProvider "svn")].
Proof.
  assert (Hunknown : no_current_record Fixture.env "svn" false Fixture.store).
  { exists Fixture.store, (Fixture.known Fixture.store), Fixture.store.
    repeat split; reflexivity. }
  pose proof (proj2 (proj2 (proj2
                (cleanup_and_purge_pass_through Fixture.World Fixture.env
                   (Fixture.request "svn") Fixture.store)))
                (JsObject []) _ eq_refl) as [Hsent Hworld].
  split; [exact Hunknown | split; [exact Hsent |]].
  rewrite Hworld. reflexivity.
Defined.
